(** * lmdiff: changed-file resolution and content reconstruction

    A shallow embedding of [main.go] and [pkg/diff/diff.go].  Everything the
    program learns from the outside (the git subprocesses, [os.Stat],
    [os.ReadFile], the file tree seen by [filepath.Walk]) is read from a
    [World]; everything it does to the outside (the [log.Printf] lines and
    the sequence of external calls) is recorded in a [State] that is
    threaded through a small state monad. *)

From Stdlib Require Import Ascii String.
From stdpp Require Import base option list strings gmap.

Open Scope string_scope.
Open Scope list_scope.

(** ** Go values *)

(** A Go [(T, error)] pair with the usual discipline: exactly one side is
    meaningful.  An [error] is represented by its message ([err.Error()]),
    which is what [%v] prints. *)
Inductive result (A : Type) : Type :=
| Ok (a : A)
| Err (msg : string).
Arguments Ok {A} a.
Arguments Err {A} msg.

Definition is_Ok {A} (r : result A) : bool :=
  match r with Ok _ => true | Err _ => false end.

Definition byte (n : nat) : ascii := ascii_of_nat n.
Definition nl : ascii := byte 10.
Definition NL : string := String nl "".

(** ** package strings *)
Module strings.

(** The six one-byte white-space characters: tab, line feed, vertical tab,
    form feed, carriage return and space. *)
Definition asciiSpace (c : ascii) : bool :=
  let n := nat_of_ascii c in
  (Nat.leb 9 n && Nat.leb n 13) || Nat.eqb n 32.

(** UTF-8 encodings of the remaining [unicode.IsSpace] runes:
    U+0085 and U+00A0 take two bytes. *)
Definition space2 (b1 b2 : ascii) : bool :=
  Nat.eqb (nat_of_ascii b1) 194 &&
  (Nat.eqb (nat_of_ascii b2) 133 || Nat.eqb (nat_of_ascii b2) 160).

(** U+1680, U+2000..U+200A, U+2028, U+2029, U+202F, U+205F and U+3000 take
    three bytes. *)
Definition space3 (b1 b2 b3 : ascii) : bool :=
  let x := nat_of_ascii b1 in
  let y := nat_of_ascii b2 in
  let z := nat_of_ascii b3 in
  (Nat.eqb x 225 && Nat.eqb y 154 && Nat.eqb z 128) ||
  (Nat.eqb x 226 && Nat.eqb y 128 &&
     ((Nat.leb 128 z && Nat.leb z 138) || Nat.eqb z 168 || Nat.eqb z 169
      || Nat.eqb z 175)) ||
  (Nat.eqb x 226 && Nat.eqb y 129 && Nat.eqb z 159) ||
  (Nat.eqb x 227 && Nat.eqb y 128 && Nat.eqb z 128).

(** Drops white-space runes from the front of [s].  With [back = true] the
    string is read back to front (it is a reversed string), so the bytes of
    a rune arrive last byte first. *)
Fixpoint trimFront (back : bool) (s : string) : string :=
  match s with
  | EmptyString => s
  | String c1 s1 =>
      if asciiSpace c1 then trimFront back s1 else
      match s1 with
      | EmptyString => s
      | String c2 s2 =>
          if (if back then space2 c2 c1 else space2 c1 c2)
          then trimFront back s2 else
          match s2 with
          | EmptyString => s
          | String c3 s3 =>
              if (if back then space3 c3 c2 c1 else space3 c1 c2 c3)
              then trimFront back s3 else s
          end
      end
  end.

Definition TrimLeftSpace (s : string) : string := trimFront false s.
Definition TrimRightSpace (s : string) : string :=
  String.rev (trimFront true (String.rev s)).

(** [strings.TrimSpace]: leading and trailing Unicode white space removed. *)
Definition TrimSpace (s : string) : string :=
  TrimRightSpace (TrimLeftSpace s).

(** [strings.Split(s, sep)] for a one-byte separator, the only form the
    program uses ([sep = "\n"]).  The result is never empty:
    [Split "" sep = [""]]. *)
Fixpoint Split (s : string) (sep : ascii) : list string :=
  match s with
  | EmptyString => [EmptyString]
  | String c rest =>
      if Ascii.eqb c sep then EmptyString :: Split rest sep
      else match Split rest sep with
           | h :: t => String c h :: t
           | [] => [String c EmptyString]
           end
  end.

End strings.

(** ** Files and processes as the program sees them *)

(** What [cmd.Run()] leaves behind: the two captured streams and the error
    of [Run] ([None] is Go's [nil]). *)
Record CmdResult : Type := mkCmdResult {
  stdout : string;
  stderr : string;
  run_err : option string
}.

(** The part of [os.FileInfo] the program looks at. *)
Record FileInfo : Type := mkFileInfo {
  Name : string;
  IsDir : bool
}.

(** The file tree below a walk root as [os.Lstat] and the directory reads of
    [filepath.Walk] report it.  [File] stands for whatever [lstat] does not
    call a directory, which is all the program asks ([info.IsDir()]).  The
    children of a directory are listed in the order of its sorted names. *)
#[local] Unset Elimination Schemes.
Inductive Tree : Type :=
| NoEntry (name : string) (err : string)         (* lstat fails *)
| File (name : string)                           (* lstat: not a directory *)
| DirUnreadable (name : string) (err : string)   (* a directory whose names cannot be read *)
| Dir (name : string) (children : list Tree).
#[local] Set Elimination Schemes.

Definition treeName (t : Tree) : string :=
  match t with
  | NoEntry n _ | File n | DirUnreadable n _ | Dir n _ => n
  end.

Definition lstat (t : Tree) : result FileInfo :=
  match t with
  | NoEntry _ e => Err e
  | File n => Ok (mkFileInfo n false)
  | DirUnreadable n _ | Dir n _ => Ok (mkFileInfo n true)
  end.

(** ** package path/filepath (Unix) *)

Definition slash : ascii := "/"%char.

Module filepath.

(** One step of [Clean] over the stack of elements kept so far (top first):
    empty and [.] elements vanish, [..] removes the element before it, or
    stays when the path is not rooted and nothing can be removed. *)
Definition cleanStep (rooted : bool) (out : list string) (elem : string)
  : list string :=
  if String.eqb elem "" || String.eqb elem "." then out
  else if String.eqb elem ".." then
    match out with
    | top :: out' =>
        if String.eqb top ".." then ".." :: out else out'
    | [] => if rooted then [] else [".."]
    end
  else elem :: out.

Fixpoint joinSlash (elems : list string) : string :=
  match elems with
  | [] => ""
  | [e] => e
  | e :: rest => e +:+ "/" +:+ joinSlash rest
  end.

(** [filepath.Clean]: the shortest path equivalent to [path] by lexical
    processing. *)
Definition Clean (path : string) : string :=
  match path with
  | EmptyString => "."
  | String c _ =>
      let rooted := Ascii.eqb c slash in
      let out := fold_left (cleanStep rooted) (strings.Split path slash) [] in
      let body := joinSlash (rev out) in
      if rooted then "/" +:+ body
      else if String.eqb body "" then "." else body
  end.

(** [filepath.Join(dir, name)]: the elements joined by a slash and
    cleaned; empty elements are ignored. *)
Definition Join (dir name : string) : string :=
  if String.eqb dir "" then
    if String.eqb name "" then "" else Clean name
  else Clean (dir +:+ "/" +:+ name).

(** The sentinel errors of the walk, and any other error with its
    message. *)
Inductive error : Type :=
| SkipDir
| SkipAll
| Failure (msg : string).

Definition Error (e : error) : string :=
  match e with
  | SkipDir => "skip this directory"
  | SkipAll => "skip everything and stop the walk"
  | Failure msg => msg
  end.

Definition isSkipDir (e : option error) : bool :=
  match e with Some SkipDir => true | _ => false end.
Definition isSkipAll (e : option error) : bool :=
  match e with Some SkipAll => true | _ => false end.
Definition isNil (e : option error) : bool :=
  match e with None => true | Some _ => false end.

(** *** Walk

    [filepath.Walk] of Go's standard library calls [walkFn] for every file
    and directory of the tree rooted at [root], the root included,
    directories before their contents; the definitions follow its [Walk]
    and [walk] statement by statement.  The variables the Go closure writes
    to are the state [S] that the calls pass along. *)
Section Walk.
Context {S : Type}.

Definition WalkFunc : Type :=
  string -> option FileInfo -> option error -> S -> option error * S.

Variable walkFn : WalkFunc.

(** The loop [for _, name := range names] of [walk], with the recursive
    call as [visit]. *)
Definition rangeNames (visit : string -> Tree -> S -> option error * S)
    (path : string) : list Tree -> S -> option error * S :=
  fix range (names : list Tree) (s : S) {struct names} :=
    match names with
    | [] => (None, s)
    | c :: names' =>
        let filename := Join path (treeName c) in
        match lstat c with
        | Err e =>
            let '(err, s') := walkFn filename None (Some (Failure e)) s in
            if negb (isNil err) && negb (isSkipDir err) then (err, s')
            else range names' s'
        | Ok fileInfo =>
            let '(err, s') := visit filename c s in
            if negb (isNil err)
               && (negb (IsDir fileInfo) || negb (isSkipDir err))
            then (err, s')
            else range names' s'
        end
    end.

(** [walk(path, info, walkFn)], where [info] is the [lstat] of [t].  It
    is only called on entries whose [lstat] succeeded. *)
Fixpoint walk (path : string) (t : Tree) (s : S) {struct t}
  : option error * S :=
  match t with
  | NoEntry _ e => walkFn path None (Some (Failure e)) s
  | File n => walkFn path (Some (mkFileInfo n false)) None s
  | DirUnreadable n e =>
      (* readDirNames fails: walk returns what walkFn returns *)
      walkFn path (Some (mkFileInfo n true)) (Some (Failure e)) s
  | Dir n names =>
      let '(err1, s1) := walkFn path (Some (mkFileInfo n true)) None s in
      if isNil err1 then rangeNames walk path names s1
      else (err1, s1)
  end.

Definition Walk (root : string) (t : Tree) (s : S) : option error * S :=
  let '(err, s') :=
    match lstat t with
    | Err e => walkFn root None (Some (Failure e)) s
    | Ok _ => walk root t s
    end in
  if isSkipDir err || isSkipAll err then (None, s') else (err, s').

End Walk.
End filepath.

(** ** The outside world *)

Record World : Type := mkWorld {
  (** [exec.Command(argv...)] with captured stdout and stderr, then [Run] *)
  exec_Run : list string -> CmdResult;
  os_ReadFile : string -> result string;
  os_Stat : string -> result FileInfo;
  (** the tree that a walk rooted at the given path finds *)
  walk_root : string -> Tree
}.

(** External calls, in the order the program makes them. *)
Inductive Call : Type :=
| CallExec (argv : list string)
| CallReadFile (filename : string)
| CallStat (path : string)
| CallWalk (root : string).

(** [log_lines] holds the messages given to [log.Printf] (without the
    time stamp the logger puts in front of them). *)
Record State : Type := mkState {
  log_lines : list string;
  calls : list Call
}.

Definition state0 : State := mkState [] [].

Definition M (A : Type) : Type := State -> A * State.

#[global] Instance M_ret : MRet M := fun A a s => (a, s).
#[global] Instance M_bind : MBind M :=
  fun A B f m s => let '(a, s') := m s in f a s'.

Definition log_Printf (msg : string) : M unit :=
  fun s => (tt, mkState (log_lines s ++ [msg]) (calls s)).

Definition call (c : Call) : M unit :=
  fun s => (tt, mkState (log_lines s) (calls s ++ [c])).

(** ** package diff *)
Module diff.
Section WithWorld.
Context (w : World).

(** [cmd.Run()] on [exec.Command(argv...)] with both streams captured. *)
Definition Run (argv : list string) : M CmdResult :=
  _ ← call (CallExec argv); mret (exec_Run w argv).

Definition ReadFile (filename : string) : M (result string) :=
  _ ← call (CallReadFile filename); mret (os_ReadFile w filename).

Definition Stat (path : string) : M (result FileInfo) :=
  _ ← call (CallStat path); mret (os_Stat w path).

Definition GetGitDiff (branch : string) : M (result string) :=
  cmd ← Run ["git"; "diff"; branch];
  match run_err cmd with
  | Some err =>
      mret (Err ("error executing git diff: " +:+ err +:+ ", " +:+ stderr cmd))
  | None => mret (Ok (stdout cmd))
  end.

Definition GetUntrackedFiles : M (result (list string)) :=
  cmd ← Run ["git"; "ls-files"; "--others"; "--exclude-standard"];
  match run_err cmd with
  | Some err =>
      mret (Err ("error getting untracked files: " +:+ err +:+ ", "
                 +:+ stderr cmd))
  | None =>
      let files := strings.Split (strings.TrimSpace (stdout cmd)) nl in
      if Nat.eqb (length files) 1 && String.eqb (nth 0 files "") ""
      then mret (Ok [])
      else mret (Ok files)
  end.

Definition GetChangedFiles (branch : string) (includeUntracked : bool)
  : M (result (list string)) :=
  cmd ← Run ["git"; "diff"; "--name-only"; branch];
  match run_err cmd with
  | Some err =>
      mret (Err ("error getting changed files: " +:+ err +:+ ", "
                 +:+ stderr cmd))
  | None =>
      let files := strings.Split (strings.TrimSpace (stdout cmd)) nl in
      let files :=
        if Nat.eqb (length files) 1 && String.eqb (nth 0 files "") ""
        then [] else files in
      if includeUntracked then
        r ← GetUntrackedFiles;
        match r with
        | Err err => mret (Err ("error getting untracked files: " +:+ err))
        | Ok untrackedFiles => mret (Ok (files ++ untrackedFiles))
        end
      else mret (Ok files)
  end.

Definition GetFileContent (branch filename : string) : M (result string) :=
  cmd ← Run ["git"; "show"; branch +:+ ":" +:+ filename];
  match run_err cmd with
  | Some err =>
      mret (Err ("error getting file content for " +:+ filename
                 +:+ " from branch " +:+ branch +:+ ": " +:+ err +:+ ", "
                 +:+ stderr cmd))
  | None => mret (Ok (stdout cmd))
  end.

Definition GetLocalFileContent (filename : string) : M (result string) :=
  r ← ReadFile filename;
  match r with
  | Err err =>
      mret (Err ("error reading local file " +:+ filename +:+ ": " +:+ err))
  | Ok content => mret (Ok content)
  end.

Definition IsDirectory (path : string) : M (result bool) :=
  r ← Stat path;
  match r with
  | Err err => mret (Err err)
  | Ok fileInfo => mret (Ok (IsDir fileInfo))
  end.

(** The closure given to [filepath.Walk]; [files] is the slice it appends
    to.  Go would panic on [info.IsDir()] with a nil [info]; [Walk] passes
    a nil [info] only together with an error (lemma [walk_ext]), and the
    error is looked at first, so that branch is never taken. *)
Definition walkFn : filepath.WalkFunc (S := list string) :=
  fun path info err files =>
    match err with
    | Some _ => (err, files)
    | None =>
        match info with
        | None => (Some (filepath.Failure "nil pointer dereference"), files)
        | Some info =>
            if IsDir info && String.eqb (Name info) ".git"
            then (Some filepath.SkipDir, files)
            else if negb (IsDir info) then (None, files ++ [path])
            else (None, files)
        end
    end.

Definition GetAllFilesInDirectory (dirPath : string)
  : M (result (list string)) :=
  _ ← call (CallWalk dirPath);
  let '(err, files) :=
    filepath.Walk walkFn dirPath (walk_root w dirPath) [] in
  match err with
  | Some err =>
      mret (Err ("error walking directory " +:+ dirPath +:+ ": "
                 +:+ filepath.Error err))
  | None => mret (Ok files)
  end.

End WithWorld.
End diff.

(** ** package main *)

(** [for _, x := range l { acc = body(acc, x) }] *)
Fixpoint forRange {A B : Type} (body : B -> A -> M B) (l : list A) (acc : B)
  : M B :=
  match l with
  | [] => mret acc
  | x :: l' => acc' ← body acc x; forRange body l' acc'
  end.

(** The command-line flags, with the names of the variables in [main]. *)
Record Flags : Type := mkFlags {
  branch : string;
  copyFlag : bool;
  shortCopyFlag : bool;
  includeUntrackedFlag : bool
}.

(** How far [main] gets: [log.Fatalf] ends the process with status 1;
    otherwise it reaches the call of [prompt.ConstructLLMPrompt], and
    [Prompt] holds the three arguments of that call. *)
Inductive Outcome : Type :=
| Fatal
| Prompt (gitDiff : string) (changedFiles : list string)
         (originalFiles : gmap string string).

Definition placeholder : string := "Error retrieving file content.".

Section Main.
Context (w : World).

Definition processFile (file branch : string) : M string :=
  r ← diff.GetFileContent w branch file;
  match r with
  | Err _ =>
      r2 ← diff.GetLocalFileContent w file;
      match r2 with
      | Err err2 =>
          _ ← log_Printf ("Warning: cannot retrieve content for " +:+ file
                          +:+ ": " +:+ err2);
          mret placeholder
      | Ok localContent => mret localContent
      end
  | Ok content => mret content
  end.

(** The body of the loop over [changedFiles] (main.go, lines 62 to 92);
    every [continue] leaves [originalFiles] as it is. *)
Definition rangeBody (branch : string) (originalFiles : gmap string string)
    (file : string) : M (gmap string string) :=
  if String.eqb file "" then mret originalFiles else
  r ← diff.IsDirectory w file;
  match r : result bool with
  | Err err =>
      _ ← log_Printf ("Warning: could not determine if " +:+ file
                      +:+ " is a directory: " +:+ err);
      mret originalFiles
  | Ok isDir =>
      if isDir then
        r ← diff.GetAllFilesInDirectory w file;
        match r with
        | Err err =>
            _ ← log_Printf ("Warning: could not read directory " +:+ file
                            +:+ ": " +:+ err);
            mret originalFiles
        | Ok dirFiles =>
            forRange (fun originalFiles dirFile =>
                        content ← processFile dirFile branch;
                        mret (<[dirFile := content]> originalFiles))
                     dirFiles originalFiles
        end
      else
        content ← processFile file branch;
        mret (<[file := content]> originalFiles)
  end.

Definition main (flags : Flags) : M Outcome :=
  r ← diff.GetGitDiff w (branch flags);
  match r with
  | Err err =>
      _ ← log_Printf ("Failed to get git diff: " +:+ err); mret Fatal
  | Ok gitDiff =>
      r ← diff.GetChangedFiles w (branch flags) (includeUntrackedFlag flags);
      match r with
      | Err err =>
          _ ← log_Printf ("Failed to get list of changed files: " +:+ err);
          mret Fatal
      | Ok changedFiles =>
          originalFiles ← forRange (rangeBody (branch flags)) changedFiles ∅;
          mret (Prompt gitDiff changedFiles originalFiles)
      end
  end.

End Main.

(** ** A small world to run the program in

    Branch [main] has [src/a.go] with content [old]; the working tree has
    [src/a.go] (content [new]), the untracked [notes.txt], a directory [pkg]
    with a nested repository's [.git] inside it, and a file named by a
    single space.  [gone.txt] is listed as changed but no longer exists. *)
Module Demo.

Definition lines (l : list string) : string :=
  fold_right (fun x acc => x +:+ NL +:+ acc) "" l.

Definition failed (msg : string) : CmdResult :=
  mkCmdResult "" msg (Some "exit status 128").

Definition exec_Run (argv : list string) : CmdResult :=
  match argv with
  | ["git"; "diff"; "main"] => mkCmdResult "diff --git a/src/a.go b/src/a.go" "" None
  | ["git"; "diff"; "--name-only"; "main"] =>
      mkCmdResult (lines ["src/a.go"; "gone.txt"; "pkg/"]) "" None
  | ["git"; "ls-files"; "--others"; "--exclude-standard"] =>
      mkCmdResult (lines ["notes.txt"]) "" None
  | ["git"; "show"; "main:src/a.go"] => mkCmdResult "old" "" None
  | _ => failed "fatal: bad revision or path"
  end.

Definition os_ReadFile (filename : string) : result string :=
  if String.eqb filename "src/a.go" then Ok "new"
  else if String.eqb filename "notes.txt" then Ok "hello"
  else if String.eqb filename "pkg/a.go" then Ok "package pkg"
  else if String.eqb filename " " then Ok "blank name"
  else Err ("open " +:+ filename +:+ ": no such file or directory").

Definition os_Stat (path : string) : result FileInfo :=
  if String.eqb path "src/a.go" then Ok (mkFileInfo "a.go" false)
  else if String.eqb path "notes.txt" then Ok (mkFileInfo "notes.txt" false)
  else if String.eqb path " " then Ok (mkFileInfo " " false)
  else if String.eqb path "pkg/" then Ok (mkFileInfo "pkg" true)
  else Err ("stat " +:+ path +:+ ": no such file or directory").

Definition pkg : Tree :=
  Dir "pkg" [Dir ".git" [File "ignored"]; File "a.go"; Dir "sub" [File "b.go"]].

Definition walk_root (root : string) : Tree :=
  if String.eqb root "pkg/" then pkg
  else NoEntry root ("lstat " +:+ root +:+ ": no such file or directory").

Definition world : World := mkWorld exec_Run os_ReadFile os_Stat walk_root.

Definition flags : Flags := mkFlags "main" false false true.

(** The same world, but [pkg/private] cannot be read. *)
Definition lockedPkg : Tree :=
  Dir "pkg" [File "a.go";
             DirUnreadable "private" "open pkg/private: permission denied";
             File "z.go"].

Definition locked : World :=
  mkWorld exec_Run os_ReadFile os_Stat (fun _ => lockedPkg).

(** A world in which every command prints a single blank line. *)
Definition quiet : World :=
  mkWorld (fun _ => mkCmdResult NL "" None) os_ReadFile os_Stat walk_root.

(** A world in which every command prints [a], an empty line and [b]. *)
Definition gappy : World :=
  mkWorld (fun _ => mkCmdResult (lines ["a"; ""; "b"]) "" None)
          os_ReadFile os_Stat walk_root.

End Demo.

(** * Vocabulary of the statements *)

Definition logged (msg : string) (s : State) : State :=
  mkState (log_lines s ++ [msg]) (calls s).
Definition called (c : Call) (s : State) : State :=
  mkState (log_lines s) (calls s ++ [c]).

Definition showArgv (branch file : string) : list string :=
  ["git"; "show"; branch +:+ ":" +:+ file].

Ltac run_M :=
  unfold mbind, M_bind, mret, M_ret, call, log_Printf; cbn beta iota.

(** The entries a listing command contributes: none for output that trims
    to nothing, else the lines of the trimmed output. *)
Definition entries (out : string) : list string :=
  if String.eqb (strings.TrimSpace out) "" then []
  else strings.Split (strings.TrimSpace out) nl.

Definition untrackedArgv : list string :=
  ["git"; "ls-files"; "--others"; "--exclude-standard"].
Definition changedArgv (branch : string) : list string :=
  ["git"; "diff"; "--name-only"; branch].

(** What can be said of an entry below a walk root without walking: the
    path under which [Walk] would report it, whether [lstat] calls it a
    directory, the error of its [lstat] or of reading its names, and
    whether it lies beneath a directory named [.git]. *)
Record Entry : Type := mkEntry {
  entry_path : string;
  entry_isdir : bool;
  entry_err : option string;
  beneath_git : bool
}.

Fixpoint listing (path : string) (beneath : bool) (t : Tree) : list Entry :=
  match t with
  | NoEntry _ e => [mkEntry path false (Some e) beneath]
  | File _ => [mkEntry path false None beneath]
  | DirUnreadable _ e => [mkEntry path true (Some e) beneath]
  | Dir n children =>
      mkEntry path true None beneath ::
      List.flat_map
        (fun c => listing (filepath.Join path (treeName c))
                          (beneath || String.eqb n ".git") c)
        children
  end.

(** The readable non-directories outside every [.git] directory. *)
Definition isVisibleFile (e : Entry) : bool :=
  negb (entry_isdir e) && negb (beneath_git e)
  && match entry_err e with None => true | Some _ => false end.

Definition visibleFiles (l : list Entry) : list string :=
  map entry_path (List.filter isVisibleFile l).

(** The errors that are not hidden inside a [.git] directory. *)
Definition errorOf (e : Entry) : list string :=
  match entry_err e with
  | Some msg => if beneath_git e then [] else [msg]
  | None => []
  end.

Definition visibleErrors (l : list Entry) : list string :=
  List.flat_map errorOf l.

Definition childrenListing (path : string) (beneath : bool) (cs : list Tree)
  : list Entry :=
  List.flat_map
    (fun c => listing (filepath.Join path (treeName c)) beneath c) cs.

(** What [walk] returns for a tree without visible errors. *)
Definition skipOf (t : Tree) : option filepath.error :=
  match t with
  | Dir n _ => if String.eqb n ".git" then Some filepath.SkipDir else None
  | _ => None
  end.

Definition walk_post (l : list Entry) (skip : option filepath.error)
    (files : list string) (r : option filepath.error * list string) : Prop :=
  match visibleErrors l with
  | e :: _ => fst r = Some (filepath.Failure e)
  | [] => r = (skip, files ++ visibleFiles l)
  end.

(** * The rest of the program *)

(** ** package prompt *)
Module prompt.

(** The double quote character. *)
Definition dq : string := String (byte 34) "".

(** [strings.Builder.WriteString]: the builder is the text written so
    far. *)
Definition WriteString (promptBuilder : string) (s : string) : string :=
  promptBuilder +:+ s.

Section WithRange.
(** [for filename, content := range files]: Go visits every entry of the map
    once, in an order the runtime picks. *)
Variable rangeMap : gmap string string -> list (string * string).

Definition ConstructLLMPrompt (diff : string) (changedFiles : list string)
    (files : gmap string string) : string :=
  let promptBuilder := "" in
  let promptBuilder := WriteString promptBuilder ("<prompt>" +:+ NL) in
  let promptBuilder := WriteString promptBuilder ". <description>" in
  let promptBuilder := WriteString promptBuilder
    "Please analyze the git diff changes. Review the best practices of all files, including new files. Please use KISS+YAGNI+DRY+SOLID principles." in
  let promptBuilder := WriteString promptBuilder
    "Assess the new changes against existing files, suggest improvements, and ask clarifying questions if needed. Complete your review by providing a summary of the changes in paragraph form followed by a bulleted list of suggested changes." in
  let promptBuilder := WriteString promptBuilder ("</description>" +:+ NL) in
  let promptBuilder := WriteString promptBuilder ("  <changedFiles>" +:+ NL) in
  let promptBuilder :=
    fold_left
      (fun promptBuilder filename =>
         if String.eqb (strings.TrimSpace filename) "" then promptBuilder
         else WriteString promptBuilder
                ("    <file name=" +:+ dq +:+ filename +:+ dq +:+ "/>" +:+ NL))
      changedFiles promptBuilder in
  let promptBuilder := WriteString promptBuilder ("  </changedFiles>" +:+ NL) in
  let promptBuilder := WriteString promptBuilder ("  <files>" +:+ NL) in
  let promptBuilder :=
    fold_left
      (fun promptBuilder '(filename, content) =>
         let promptBuilder := WriteString promptBuilder
           ("    <file name=" +:+ dq +:+ filename +:+ dq +:+ ">" +:+ NL) in
         let promptBuilder := WriteString promptBuilder
           ("      <![CDATA[" +:+ NL) in
         let promptBuilder := WriteString promptBuilder content in
         let promptBuilder := WriteString promptBuilder ("      ]]>" +:+ NL) in
         WriteString promptBuilder ("    </file>" +:+ NL))
      (rangeMap files) promptBuilder in
  let promptBuilder := WriteString promptBuilder ("  </files>" +:+ NL) in
  let promptBuilder := WriteString promptBuilder ("  <gitDiff>" +:+ NL) in
  let promptBuilder := WriteString promptBuilder ("    <![CDATA[" +:+ NL) in
  let promptBuilder := WriteString promptBuilder diff in
  let promptBuilder := WriteString promptBuilder ("    ]]>" +:+ NL) in
  let promptBuilder := WriteString promptBuilder ("  </gitDiff>" +:+ NL) in
  let promptBuilder := WriteString promptBuilder ("</prompt>" +:+ NL) in
  promptBuilder.

End WithRange.
End prompt.

(** ** Vocabulary of the further statements *)

(** The content the program settles on for a path: what [git show] prints,
    else the local content, else the placeholder. *)
Definition resolve (w : World) (branch file : string) : string :=
  match run_err (exec_Run w (showArgv branch file)) with
  | None => stdout (exec_Run w (showArgv branch file))
  | Some _ =>
      match os_ReadFile w file with
      | Ok content => content
      | Err _ => "Error retrieving file content."
      end
  end.

(** The warning for a path that can be read from neither place. *)
Definition resolveWarning (w : World) (branch file : string) : list string :=
  match run_err (exec_Run w (showArgv branch file)), os_ReadFile w file with
  | Some _, Err err =>
      ["Warning: cannot retrieve content for " +:+ file
       +:+ ": error reading local file " +:+ file +:+ ": " +:+ err]
  | _, _ => []
  end.

(** The paths one entry of the change set stands for: itself when it is not
    a directory, the visible files below it when it is one that can be
    walked, nothing otherwise. *)
Definition expand (w : World) (file : string) : list string :=
  if String.eqb file "" then [] else
  match os_Stat w file with
  | Err _ => []
  | Ok fileInfo =>
      if IsDir fileInfo then
        match visibleErrors (listing file false (walk_root w file)) with
        | [] => visibleFiles (listing file false (walk_root w file))
        | _ :: _ => []
        end
      else [file]
  end.

(** The warnings one entry of the change set gives rise to. *)
Definition warnings (w : World) (branch file : string) : list string :=
  if String.eqb file "" then [] else
  match os_Stat w file with
  | Err err =>
      ["Warning: could not determine if " +:+ file +:+ " is a directory: "
       +:+ err]
  | Ok fileInfo =>
      if IsDir fileInfo then
        match visibleErrors (listing file false (walk_root w file)) with
        | [] =>
            List.flat_map (resolveWarning w branch)
              (visibleFiles (listing file false (walk_root w file)))
        | e :: _ =>
            ["Warning: could not read directory " +:+ file
             +:+ ": error walking directory " +:+ file +:+ ": " +:+ e]
        end
      else resolveWarning w branch file
  end.

(** The body of the inner loop of [main], over the files of a directory. *)
Definition dirBody (w : World) (branch : string)
    (originalFiles : gmap string string) (dirFile : string)
  : M (gmap string string) :=
  content ← processFile w dirFile branch;
  mret (<[dirFile := content]> originalFiles).

(** Writing the resolved content of each path into the map, in order. *)
Definition record (w : World) (branch : string) (paths : list string)
    (m : gmap string string) : gmap string string :=
  fold_left (fun m p => <[p := resolve w branch p]> m) paths m.

(** The calls of the loop over the changed files: [git show] for the branch,
    and file system calls. *)
Definition isLoopCall (branch : string) (c : Call) : Prop :=
  match c with
  | CallExec argv => exists file, argv = showArgv branch file
  | _ => True
  end.

(** The commands of the two listing steps of [main]. *)
Definition diffArgv (branch : string) : list string := ["git"; "diff"; branch].

Definition isListingCall (branch : string) (c : Call) : Prop :=
  c = CallExec (diffArgv branch) \/ c = CallExec (changedArgv branch) \/
  c = CallExec untrackedArgv.

(** [s'] comes from [s] by further calls, all of them in [P]. *)
Definition adds (P : Call -> Prop) (s s' : State) : Prop :=
  exists rest, calls s' = calls s ++ rest /\ Forall P rest.

(** Whether the byte [c] occurs in [s]. *)
Fixpoint hasByte (c : ascii) (s : string) : bool :=
  match s with
  | EmptyString => false
  | String a rest => Ascii.eqb a c || hasByte c rest
  end.

(** The tree with every directory named [.git] emptied. *)
Fixpoint prune (t : Tree) : Tree :=
  match t with
  | Dir n children =>
      if String.eqb n ".git" then Dir n [] else Dir n (map prune children)
  | _ => t
  end.

(** The pieces of the prompt. *)
Definition concatAll (l : list string) : string := fold_right String.append "" l.

Definition isBlank (filename : string) : bool :=
  String.eqb (strings.TrimSpace filename) "".

Definition nameLine (filename : string) : string :=
  "    <file name=" +:+ prompt.dq +:+ filename +:+ prompt.dq +:+ "/>" +:+ NL.

Definition fileElement (kv : string * string) : string :=
  "    <file name=" +:+ prompt.dq +:+ fst kv +:+ prompt.dq +:+ ">" +:+ NL
  +:+ "      <![CDATA[" +:+ NL +:+ snd kv +:+ "      ]]>" +:+ NL
  +:+ "    </file>" +:+ NL.

Definition promptHead : string :=
  "<prompt>" +:+ NL +:+ ". <description>"
  +:+ "Please analyze the git diff changes. Review the best practices of all files, including new files. Please use KISS+YAGNI+DRY+SOLID principles."
  +:+ "Assess the new changes against existing files, suggest improvements, and ask clarifying questions if needed. Complete your review by providing a summary of the changes in paragraph form followed by a bulleted list of suggested changes."
  +:+ "</description>" +:+ NL +:+ "  <changedFiles>" +:+ NL.

Definition promptMiddle : string :=
  "  </changedFiles>" +:+ NL +:+ "  <files>" +:+ NL.

Definition promptBeforeDiff : string :=
  "  </files>" +:+ NL +:+ "  <gitDiff>" +:+ NL +:+ "    <![CDATA[" +:+ NL.

Definition promptTail : string :=
  "    ]]>" +:+ NL +:+ "  </gitDiff>" +:+ NL +:+ "</prompt>" +:+ NL.

(** [x] occurs in [s] as a piece of consecutive text. *)
Definition occursIn (x s : string) : Prop := exists a b, s = a +:+ x +:+ b.

(** ** More worlds to run the program in *)
Module Demo2.

(** As [Demo.world], but [git ls-files] fails. *)
Definition exec_Run (argv : list string) : CmdResult :=
  match argv with
  | ["git"; "ls-files"; "--others"; "--exclude-standard"] =>
      Demo.failed "fatal: not a git repository"
  | _ => Demo.exec_Run argv
  end.

Definition deaf : World :=
  mkWorld exec_Run Demo.os_ReadFile Demo.os_Stat Demo.walk_root.

(** As [Demo.world], but the [.git] directory of [pkg] holds an entry that
    cannot be examined and a directory that cannot be read. *)
Definition dirtyPkg : Tree :=
  Dir "pkg" [Dir ".git" [NoEntry "index.lock" "lstat: input/output error";
                         DirUnreadable "objects" "permission denied";
                         File "HEAD"];
             File "a.go"; Dir "sub" [File "b.go"]].

Definition dirty : World :=
  mkWorld Demo.exec_Run Demo.os_ReadFile Demo.os_Stat (fun _ => dirtyPkg).

End Demo2.

(** ** The end of main: printing and the clipboard *)

(** What [exec.Command] of [pbcopy] meets: the error of [cmd.StdinPipe()] and
    the error of [cmd.Start()] ([None] is Go's [nil]). *)
Record Pbcopy : Type := mkPbcopy {
  StdinPipe_err : option string;
  Start_err : option string
}.

(** What the program writes: a line on standard output ([fmt.Println], the
    text without the line feed that is added), or bytes into the pipe to
    [pbcopy] ([in.Write], whose result the program does not look at). *)
Inductive Output : Type :=
| Println (text : string)
| PipeWrite (text : string).

(** How the process ends: [log.Fatalf] exits with status 1, a return from
    [main] with status 0. *)
Inductive Exit : Type :=
| ExitFatal
| ExitOk.

Definition pbcopyArgv : list string := ["pbcopy"].

(** The whole of [main]: the steps up to the call of
    [prompt.ConstructLLMPrompt] are [main] above (main.go, lines 39 to 95);
    then the prompt is printed and, when [--copy] or [-c] is given, piped to
    [pbcopy] (lines 97 to 115).  The process is started by [cmd.Start()], so
    that is where the call is recorded; the results of [in.Write],
    [in.Close] and [cmd.Wait] are dropped by the program. *)
Definition mainProgram
    (rangeMap : gmap string string -> list (string * string))
    (w : World) (pb : Pbcopy) (flags : Flags) : M (Exit * list Output) :=
  o ← main w flags;
  match o with
  | Fatal => mret (ExitFatal, [])
  | Prompt gitDiff changedFiles originalFiles =>
      let promptText :=
        prompt.ConstructLLMPrompt rangeMap gitDiff changedFiles originalFiles in
      let out := [Println promptText] in
      let shouldCopy := copyFlag flags || shortCopyFlag flags in
      if shouldCopy then
        match StdinPipe_err pb with
        | Some err =>
            _ ← log_Printf ("Failed to get stdin pipe for pbcopy: " +:+ err);
            mret (ExitFatal, out)
        | None =>
            _ ← call (CallExec pbcopyArgv);
            match Start_err pb with
            | Some err =>
                _ ← log_Printf ("Failed to start pbcopy: " +:+ err);
                mret (ExitFatal, out)
            | None =>
                mret (ExitOk,
                      out ++ [PipeWrite promptText;
                              Println "Prompt copied to clipboard."])
            end
        end
      else mret (ExitOk, out)
  end.

(** The commands of the whole run. *)
Definition isProgramCall (branch : string) (c : Call) : Prop :=
  isListingCall branch c \/ isLoopCall branch c \/ c = CallExec pbcopyArgv.

(** One of the listing steps of [main] fails. *)
Definition listingFails (w : World) (flags : Flags) : Prop :=
  run_err (exec_Run w (diffArgv (branch flags))) <> None \/
  run_err (exec_Run w (changedArgv (branch flags))) <> None \/
  (includeUntrackedFlag flags = true /\
   run_err (exec_Run w untrackedArgv) <> None).

(** The clipboard is asked for and [pbcopy] cannot be set up. *)
Definition clipboardFails (pb : Pbcopy) (flags : Flags) : Prop :=
  copyFlag flags || shortCopyFlag flags = true /\
  (StdinPipe_err pb <> None \/ Start_err pb <> None).

(** ** Worlds for the end of main and for symbolic links *)
Module Demo3.

(** [pbcopy] works. *)
Definition pbcopy : Pbcopy := mkPbcopy None None.

(** No [pbcopy] on this machine: the pipe is made, the start fails. *)
Definition noPbcopy : Pbcopy :=
  mkPbcopy None (Some "exec: pbcopy: executable file not found in $PATH").

Definition copyFlags : Flags := mkFlags "main" true false true.

(** The directory [top] holds [lnk], a symbolic link to a directory:
    [lstat], which the walk uses, does not call it a directory; [os.Stat],
    which follows the link, does. *)
Definition os_Stat (path : string) : result FileInfo :=
  if String.eqb path "top" then Ok (mkFileInfo "top" true)
  else if String.eqb path "top/lnk" then Ok (mkFileInfo "lnk" true)
  else Err ("stat " +:+ path +:+ ": no such file or directory").

Definition walk_root (root : string) : Tree :=
  if String.eqb root "top" then Dir "top" [File "lnk"]
  else NoEntry root ("lstat " +:+ root +:+ ": no such file or directory").

Definition linked : World :=
  mkWorld Demo.exec_Run Demo.os_ReadFile os_Stat walk_root.

End Demo3.

(** * Properties *)

(** ** The library functions on small inputs *)

Example TrimSpace_ex :
  strings.TrimSpace (NL +:+ " a b" +:+ NL +:+ NL) = "a b".
Proof. reflexivity. Qed.

(** U+00A0 in front and U+3000 behind are white space too. *)
Example TrimSpace_unicode :
  strings.TrimSpace
    (String (byte 194) (String (byte 160)
       ("a" +:+ String (byte 227) (String (byte 128) (String (byte 128) "")))))
  = "a".
Proof. reflexivity. Qed.

Example Split_ex :
  strings.Split ("a" +:+ NL +:+ NL +:+ "b") nl = ["a"; ""; "b"].
Proof. reflexivity. Qed.

Example Clean_ex :
  map filepath.Clean
      ["pkg/"; "a//b/./c/"; "a/.."; "../a/../.."; "/.."; "/a/../b"]
  = ["pkg"; "a/b/c"; "."; "../.."; "/"; "/b"].
Proof. reflexivity. Qed.

Example Join_ex :
  filepath.Join "pkg/" "a.go" = "pkg/a.go" /\
  filepath.Join "." ".git" = ".git".
Proof. split; reflexivity. Qed.

(** ** Equations of the content functions *)

Lemma GetFileContent_eq w branch filename s :
  diff.GetFileContent w branch filename s =
  (match run_err (exec_Run w (showArgv branch filename)) with
   | Some err =>
       Err ("error getting file content for " +:+ filename
            +:+ " from branch " +:+ branch +:+ ": " +:+ err +:+ ", "
            +:+ stderr (exec_Run w (showArgv branch filename)))
   | None => Ok (stdout (exec_Run w (showArgv branch filename)))
   end,
   called (CallExec (showArgv branch filename)) s).
Proof.
  unfold diff.GetFileContent, diff.Run, showArgv. run_M.
  destruct (run_err _); reflexivity.
Qed.

Lemma GetLocalFileContent_eq w filename s :
  diff.GetLocalFileContent w filename s =
  (match os_ReadFile w filename with
   | Err err => Err ("error reading local file " +:+ filename +:+ ": " +:+ err)
   | Ok content => Ok content
   end,
   called (CallReadFile filename) s).
Proof.
  unfold diff.GetLocalFileContent, diff.ReadFile. run_M.
  destruct (os_ReadFile _ _); reflexivity.
Qed.

Lemma processFile_eq w file branch s :
  processFile w file branch s =
  match diff.GetFileContent w branch file s with
  | (Ok content, s1) => (content, s1)
  | (Err _, s1) =>
      match diff.GetLocalFileContent w file s1 with
      | (Ok localContent, s2) => (localContent, s2)
      | (Err err2, s2) =>
          (placeholder,
           logged ("Warning: cannot retrieve content for " +:+ file
                   +:+ ": " +:+ err2) s2)
      end
  end.
Proof.
  unfold processFile. run_M.
  destruct (diff.GetFileContent w branch file s) as [[content|e] s1];
    [reflexivity|].
  destruct (diff.GetLocalFileContent w file s1) as [[c|e2] s2]; reflexivity.
Qed.

(** ** Content resolution *)

(** C1: [processFile] has no error result: for every world, path and
    branch it returns a string.  The string is what [git show] printed when
    that command succeeds, else the content read from the working tree when
    that read succeeds, else the placeholder.  In the placeholder case
    exactly one warning, naming the path, is added to the log; in the other
    two cases the log is left as it was. *)
Theorem processFile_never_fails w file branch s :
  exists content s',
    processFile w file branch s = (content, s') /\
    match run_err (exec_Run w (showArgv branch file)), os_ReadFile w file with
    | None, _ =>
        content = stdout (exec_Run w (showArgv branch file)) /\
        log_lines s' = log_lines s
    | Some _, Ok localContent =>
        content = localContent /\ log_lines s' = log_lines s
    | Some _, Err err =>
        content = "Error retrieving file content." /\
        log_lines s' =
          log_lines s ++
          ["Warning: cannot retrieve content for " +:+ file
           +:+ ": error reading local file " +:+ file +:+ ": " +:+ err]
    end.
Proof.
  rewrite processFile_eq, GetFileContent_eq.
  destruct (run_err _) as [e|]; [|eauto].
  rewrite GetLocalFileContent_eq.
  destruct (os_ReadFile w file) as [c|e2]; eauto.
Qed.

(** C2: when [GetFileContent] succeeds for the path, [processFile] returns
    exactly the content of the revision.  The only external call it makes
    is the [git show]; the working tree is not read, so the result is the
    same whatever the local copy holds. *)
Theorem processFile_revision_first w file branch s content :
  fst (diff.GetFileContent w branch file s) = Ok content ->
  processFile w file branch s
    = (content, called (CallExec (showArgv branch file)) s) /\
  (forall readFile,
      fst (processFile (mkWorld (exec_Run w) readFile (os_Stat w) (walk_root w))
             file branch s) = content).
Proof.
  intros Hg. split.
  - rewrite processFile_eq.
    rewrite GetFileContent_eq in Hg |- *. cbn [fst] in Hg.
    destruct (run_err _); [discriminate|]. congruence.
  - intros readFile. rewrite processFile_eq.
    rewrite GetFileContent_eq in Hg |- *. cbn [fst exec_Run] in Hg |- *.
    destruct (run_err _); [discriminate|]. cbn. congruence.
Qed.

Lemma processFile_revision_first_witness :
  fst (diff.GetFileContent Demo.world "main" "src/a.go" state0) = Ok "old" /\
  os_ReadFile Demo.world "src/a.go" = Ok "new" /\
  processFile Demo.world "src/a.go" "main" state0
    = ("old", called (CallExec (showArgv "main" "src/a.go")) state0).
Proof.
  split; [reflexivity|]. split; [reflexivity|].
  apply (processFile_revision_first Demo.world "src/a.go" "main" state0 "old").
  reflexivity.
Defined.

(** C3: when [GetFileContent] fails, with whatever error, [processFile]
    goes on to read the path from the working tree (the read is its second
    and last external call), and when that read succeeds it returns the
    local content and logs nothing. *)
Theorem processFile_falls_back w file branch s err :
  fst (diff.GetFileContent w branch file s) = Err err ->
  calls (snd (processFile w file branch s))
    = calls s ++ [CallExec (showArgv branch file); CallReadFile file] /\
  (forall localContent,
      fst (diff.GetLocalFileContent w file
             (snd (diff.GetFileContent w branch file s))) = Ok localContent ->
      fst (processFile w file branch s) = localContent /\
      log_lines (snd (processFile w file branch s)) = log_lines s).
Proof.
  intros Hg. rewrite processFile_eq.
  destruct (diff.GetFileContent w branch file s) as [[c|e] s1] eqn:Eg;
    cbn [fst snd] in *; [discriminate|].
  rewrite GetFileContent_eq in Eg. inversion Eg as [[He Hs]]. clear Eg.
  rewrite GetLocalFileContent_eq.
  split.
  - destruct (os_ReadFile w file); cbn; rewrite <- app_assoc; reflexivity.
  - intros localContent Hl. cbn [fst] in Hl.
    destruct (os_ReadFile w file); [|discriminate].
    cbn. split; congruence.
Qed.

Lemma processFile_falls_back_witness :
  processFile Demo.world "notes.txt" "main" state0
  = ("hello",
     mkState [] [CallExec (showArgv "main" "notes.txt"); CallReadFile "notes.txt"]).
Proof.
  pose proof (processFile_falls_back Demo.world "notes.txt" "main" state0 _
                eq_refl) as [Hc Hl].
  destruct (Hl "hello" eq_refl) as [Hf Hlog].
  destruct (processFile Demo.world "notes.txt" "main" state0) as [c [l cs]].
  cbn in *. subst. reflexivity.
Defined.

(** ** Lines of tool output *)

Lemma Split_not_nil s sep : strings.Split s sep <> [].
Proof.
  destruct s as [|c rest]; cbn; [discriminate|].
  destruct (Ascii.eqb c sep); [discriminate|].
  destruct (strings.Split rest sep); discriminate.
Qed.

(** Splitting at a separator splits the list of fields. *)
Lemma Split_app a b sep :
  strings.Split (a +:+ String sep b) sep
  = strings.Split a sep ++ strings.Split b sep.
Proof.
  induction a as [|c a IH]; simpl.
  - rewrite Ascii.eqb_refl. reflexivity.
  - destruct (Ascii.eqb c sep); [rewrite IH; reflexivity|].
    rewrite IH.
    destruct (strings.Split a sep) as [|h t] eqn:E; [|reflexivity].
    exfalso. exact (Split_not_nil _ _ E).
Qed.

(** The test [len(files) == 1 && files[0] == ""] holds exactly when the
    string that was split is empty. *)
Lemma Split_blank_test s :
  Nat.eqb (length (strings.Split s nl)) 1
  && String.eqb (nth 0 (strings.Split s nl) "") ""
  = String.eqb s "".
Proof.
  destruct s as [|c rest]; [reflexivity|].
  cbn [strings.Split].
  destruct (Ascii.eqb c nl).
  - pose proof (Split_not_nil rest nl).
    destruct (strings.Split rest nl); [congruence|reflexivity].
  - destruct (strings.Split rest nl); cbn;
      first [reflexivity | apply andb_false_r].
Qed.

Lemma GetUntrackedFiles_eq w s :
  diff.GetUntrackedFiles w s =
  (match run_err (exec_Run w untrackedArgv) with
   | Some err =>
       Err ("error getting untracked files: " +:+ err +:+ ", "
            +:+ stderr (exec_Run w untrackedArgv))
   | None => Ok (entries (stdout (exec_Run w untrackedArgv)))
   end,
   called (CallExec untrackedArgv) s).
Proof.
  unfold diff.GetUntrackedFiles, diff.Run, entries. run_M.
  fold untrackedArgv.
  destruct (run_err _); [reflexivity|].
  rewrite Split_blank_test.
  destruct (String.eqb _ ""); reflexivity.
Qed.

Lemma GetChangedFiles_eq w branch includeUntracked s :
  diff.GetChangedFiles w branch includeUntracked s =
  match run_err (exec_Run w (changedArgv branch)) with
  | Some err =>
      (Err ("error getting changed files: " +:+ err +:+ ", "
            +:+ stderr (exec_Run w (changedArgv branch))),
       called (CallExec (changedArgv branch)) s)
  | None =>
      let files := entries (stdout (exec_Run w (changedArgv branch))) in
      if includeUntracked then
        match diff.GetUntrackedFiles w (called (CallExec (changedArgv branch)) s)
        with
        | (Err err, s') => (Err ("error getting untracked files: " +:+ err), s')
        | (Ok untrackedFiles, s') => (Ok (files ++ untrackedFiles), s')
        end
      else (Ok files, called (CallExec (changedArgv branch)) s)
  end.
Proof.
  unfold diff.GetChangedFiles, diff.Run, entries. run_M.
  fold (changedArgv branch).
  destruct (run_err _); [reflexivity|].
  rewrite Split_blank_test.
  destruct (String.eqb _ ""); destruct includeUntracked; try reflexivity;
    destruct (diff.GetUntrackedFiles w _) as [[u|e] s']; reflexivity.
Qed.

(** C7: when a listing command succeeds and its output trims to the empty
    string (a single blank line, say), it contributes no entry:
    [GetUntrackedFiles] returns the empty list, [GetChangedFiles] without
    untracked files returns the empty list, and [GetChangedFiles] with
    untracked files returns just the untracked ones.  None of them returns an
    error or the list holding one empty string. *)
Theorem blank_output_no_entries w branch s :
  let ls := exec_Run w untrackedArgv in
  let changed := exec_Run w (changedArgv branch) in
  (run_err ls = None -> strings.TrimSpace (stdout ls) = "" ->
   fst (diff.GetUntrackedFiles w s) = Ok []) /\
  (run_err changed = None -> strings.TrimSpace (stdout changed) = "" ->
   fst (diff.GetChangedFiles w branch false s) = Ok [] /\
   (run_err ls = None ->
    fst (diff.GetChangedFiles w branch true s)
    = fst (diff.GetUntrackedFiles w s))).
Proof.
  cbn zeta. split.
  - intros Hrun Hblank. rewrite GetUntrackedFiles_eq, Hrun. cbn [fst].
    unfold entries. rewrite Hblank. reflexivity.
  - intros Hrun Hblank. rewrite !GetChangedFiles_eq, Hrun. cbn zeta.
    unfold entries at 1 2. rewrite Hblank. cbn [String.eqb fst].
    split; [reflexivity|].
    intros Hls. rewrite !GetUntrackedFiles_eq, Hls. reflexivity.
Qed.

Lemma blank_output_no_entries_witness :
  strings.TrimSpace NL = "" /\
  fst (diff.GetUntrackedFiles Demo.quiet state0) = Ok [] /\
  fst (diff.GetChangedFiles Demo.quiet "main" false state0) = Ok [] /\
  fst (diff.GetChangedFiles Demo.quiet "main" true state0) = Ok [].
Proof.
  destruct (blank_output_no_entries Demo.quiet "main" state0) as [Hu Hc].
  destruct (Hc eq_refl eq_refl) as [Hf Ht].
  split; [reflexivity|]. split; [exact (Hu eq_refl eq_refl)|].
  split; [exact Hf|].
  rewrite (Ht eq_refl). exact (Hu eq_refl eq_refl).
Defined.

(** C8: with [includeUntracked] set, and both listing commands succeeding,
    [GetChangedFiles] returns the tracked changed paths followed by the
    untracked paths, each group being the entries of its command's output in
    the order of the output. *)
Theorem changed_files_tracked_then_untracked w branch s tracked untracked :
  fst (diff.GetChangedFiles w branch false s) = Ok tracked ->
  fst (diff.GetUntrackedFiles w s) = Ok untracked ->
  fst (diff.GetChangedFiles w branch true s) = Ok (tracked ++ untracked) /\
  tracked = entries (stdout (exec_Run w (changedArgv branch))) /\
  untracked = entries (stdout (exec_Run w untrackedArgv)).
Proof.
  rewrite !GetChangedFiles_eq, !GetUntrackedFiles_eq. cbn zeta.
  destruct (run_err (exec_Run w (changedArgv branch))); cbn [fst];
    [discriminate|].
  destruct (run_err (exec_Run w untrackedArgv)); cbn [fst]; [discriminate|].
  intros [= <-] [= <-]. auto.
Qed.

Lemma changed_files_tracked_then_untracked_witness :
  fst (diff.GetChangedFiles Demo.world "main" true state0)
  = Ok (["src/a.go"; "gone.txt"; "pkg/"] ++ ["notes.txt"]).
Proof.
  apply (changed_files_tracked_then_untracked Demo.world "main" state0);
    reflexivity.
Defined.

(** C10: when a listing command succeeds and its trimmed output is not
    empty, the entries are exactly the fields of the trimmed output split at
    every line feed: [GetUntrackedFiles] returns them, and [GetChangedFiles]
    returns them (followed by the untracked entries when those are asked
    for).  Nothing is dropped inside the output: an empty line between two
    lines gives an empty-string entry. *)
Theorem nonblank_output_split w branch s out :
  strings.TrimSpace out <> "" ->
  let ls := exec_Run w untrackedArgv in
  let changed := exec_Run w (changedArgv branch) in
  let fields := strings.Split (strings.TrimSpace out) nl in
  (run_err ls = None -> stdout ls = out ->
   fst (diff.GetUntrackedFiles w s) = Ok fields) /\
  (run_err changed = None -> stdout changed = out ->
   fst (diff.GetChangedFiles w branch false s) = Ok fields /\
   forall untracked,
     fst (diff.GetUntrackedFiles w s) = Ok untracked ->
     fst (diff.GetChangedFiles w branch true s) = Ok (fields ++ untracked)) /\
  (forall a b,
     strings.TrimSpace out = a +:+ NL +:+ NL +:+ b ->
     fields = strings.Split a nl ++ "" :: strings.Split b nl).
Proof.
  intros Hne. cbn zeta.
  assert (He : entries out = strings.Split (strings.TrimSpace out) nl).
  { unfold entries. destruct (String.eqb_spec (strings.TrimSpace out) "");
      [contradiction|reflexivity]. }
  split; [|split].
  - intros Hrun Hout. rewrite GetUntrackedFiles_eq, Hrun, Hout. cbn.
    congruence.
  - intros Hrun Hout. rewrite !GetChangedFiles_eq, Hrun, Hout.
    cbn [fst]. cbn zeta. split; [congruence|].
    intros untracked. rewrite !GetUntrackedFiles_eq.
    destruct (run_err (exec_Run w untrackedArgv)); cbn [fst];
      [discriminate|].
    intros [= <-]. congruence.
  - intros a b ->.
    change (a +:+ NL +:+ NL +:+ b) with (a +:+ String nl ("" +:+ String nl b)).
    rewrite !Split_app. reflexivity.
Qed.

Lemma nonblank_output_split_witness :
  fst (diff.GetUntrackedFiles Demo.gappy state0) = Ok ["a"; ""; "b"] /\
  fst (diff.GetChangedFiles Demo.gappy "main" false state0) = Ok ["a"; ""; "b"] /\
  fst (diff.GetChangedFiles Demo.gappy "main" true state0)
  = Ok ["a"; ""; "b"; "a"; ""; "b"].
Proof.
  assert (Hne : strings.TrimSpace (Demo.lines ["a"; ""; "b"]) <> "")
    by (vm_compute; discriminate).
  destruct (nonblank_output_split Demo.gappy "main" state0 _ Hne)
    as (Hu & Hc & _).
  destruct (Hc eq_refl eq_refl) as [Hf Ht].
  split; [exact (Hu eq_refl eq_refl)|]. split; [exact Hf|].
  exact (Ht _ (Hu eq_refl eq_refl)).
Defined.

(** ** The loop over the changed files *)

Lemma forRange_app {A B} (body : B -> A -> M B) l1 l2 acc s :
  forRange body (l1 ++ l2) acc s =
  let '(acc', s') := forRange body l1 acc s in forRange body l2 acc' s'.
Proof.
  revert acc s. induction l1 as [|x l1 IH]; intros acc s; [reflexivity|].
  cbn [app forRange]. run_M.
  destruct (body acc x s) as [acc1 s1]. apply IH.
Qed.

Lemma IsDirectory_eq w path s :
  diff.IsDirectory w path s =
  (match os_Stat w path with
   | Err err => Err err
   | Ok fileInfo => Ok (IsDir fileInfo)
   end, called (CallStat path) s).
Proof.
  unfold diff.IsDirectory, diff.Stat. run_M.
  destruct (os_Stat w path); reflexivity.
Qed.

Lemma rangeBody_empty w branch m s : rangeBody w branch m "" s = (m, s).
Proof. reflexivity. Qed.

Lemma rangeBody_nonempty w branch m file s :
  file <> "" ->
  rangeBody w branch m file s =
  match diff.IsDirectory w file s with
  | (Err err, s1) =>
      (m, logged ("Warning: could not determine if " +:+ file
                  +:+ " is a directory: " +:+ err) s1)
  | (Ok true, s1) =>
      match diff.GetAllFilesInDirectory w file s1 with
      | (Err err, s2) =>
          (m, logged ("Warning: could not read directory " +:+ file
                      +:+ ": " +:+ err) s2)
      | (Ok dirFiles, s2) =>
          forRange (fun originalFiles dirFile =>
                      content ← processFile w dirFile branch;
                      mret (<[dirFile := content]> originalFiles))
                   dirFiles m s2
      end
  | (Ok false, s1) =>
      let '(content, s2) := processFile w file branch s1 in
      (<[file := content]> m, s2)
  end.
Proof.
  intros Hne. unfold rangeBody.
  destruct (String.eqb_spec file ""); [contradiction|].
  run_M.
  destruct (diff.IsDirectory w file s) as [[[|]|e] s1]; try reflexivity.
  destruct (diff.GetAllFilesInDirectory w file s1) as [[fs|e] s2];
    reflexivity.
Qed.

Lemma main_eq w flags s :
  main w flags s =
  match diff.GetGitDiff w (branch flags) s with
  | (Err err, s1) => (Fatal, logged ("Failed to get git diff: " +:+ err) s1)
  | (Ok gitDiff, s1) =>
      match diff.GetChangedFiles w (branch flags) (includeUntrackedFlag flags) s1
      with
      | (Err err, s2) =>
          (Fatal, logged ("Failed to get list of changed files: " +:+ err) s2)
      | (Ok changedFiles, s2) =>
          let '(originalFiles, s3) :=
            forRange (rangeBody w (branch flags)) changedFiles ∅ s2 in
          (Prompt gitDiff changedFiles originalFiles, s3)
      end
  end.
Proof.
  unfold main. run_M.
  destruct (diff.GetGitDiff w (branch flags) s) as [[d|e] s1]; [|reflexivity].
  destruct (diff.GetChangedFiles w _ _ s1) as [[c|e] s2]; reflexivity.
Qed.

Lemma processFile_calls w file branch s :
  calls s `prefix_of` calls (snd (processFile w file branch s)).
Proof.
  rewrite processFile_eq, GetFileContent_eq.
  destruct (run_err _); [|eexists; reflexivity].
  rewrite GetLocalFileContent_eq.
  destruct (os_ReadFile w file); cbn; rewrite <- app_assoc;
    eexists; reflexivity.
Qed.

Lemma forRange_calls {A B} (body : B -> A -> M B) :
  (forall acc x s, calls s `prefix_of` calls (snd (body acc x s))) ->
  forall l acc s, calls s `prefix_of` calls (snd (forRange body l acc s)).
Proof.
  intros Hbody l. induction l as [|x l IH]; intros acc s; [reflexivity|].
  cbn [forRange]. run_M.
  specialize (Hbody acc x s). destruct (body acc x s) as [acc1 s1].
  etransitivity; [exact Hbody|apply IH].
Qed.

Lemma GetAllFilesInDirectory_state w dirPath s :
  snd (diff.GetAllFilesInDirectory w dirPath s) = called (CallWalk dirPath) s.
Proof.
  unfold diff.GetAllFilesInDirectory. run_M.
  destruct (filepath.Walk _ _ _ _) as [[e|] files]; reflexivity.
Qed.

Lemma rangeBody_classifies w branch m file s :
  file <> "" ->
  (calls s ++ [CallStat file])
    `prefix_of` calls (snd (rangeBody w branch m file s)).
Proof.
  intros Hne. rewrite rangeBody_nonempty by assumption.
  rewrite IsDirectory_eq.
  destruct (os_Stat w file) as [[n [|]]|e]; cbn [IsDir].
  - pose proof (GetAllFilesInDirectory_state w file (called (CallStat file) s))
      as Hs.
    destruct (diff.GetAllFilesInDirectory w file _) as [[fs|e] s2];
      cbn [snd] in Hs; subst s2.
    + etransitivity; [|apply forRange_calls].
      * cbn. eexists. reflexivity.
      * intros acc x s0. run_M.
        pose proof (processFile_calls w x branch s0) as Hp.
        destruct (processFile w x branch s0); exact Hp.
    + cbn. eexists. reflexivity.
  - pose proof (processFile_calls w file branch (called (CallStat file) s))
      as Hp.
    destruct (processFile w file branch _); exact Hp.
  - reflexivity.
Qed.

(** C9, as the code has it: the loop skips an entry that is the empty
    string, with no classification, no content resolution and no entry in
    the content map, so the run is the same as if the entry were not in the
    list.  Any other entry, white space only or not, is classified: the
    first thing its iteration does is the [os.Stat] of the path. *)
Theorem empty_entry_skipped w branch m s :
  rangeBody w branch m "" s = (m, s) /\
  (forall pre post,
      forRange (rangeBody w branch) (pre ++ "" :: post) m s
      = forRange (rangeBody w branch) (pre ++ post) m s) /\
  (forall file,
      file <> "" ->
      (calls s ++ [CallStat file])
        `prefix_of` calls (snd (rangeBody w branch m file s))).
Proof.
  split; [reflexivity|]. split.
  - intros pre post. rewrite !forRange_app.
    destruct (forRange (rangeBody w branch) pre m s) as [m1 s1].
    reflexivity.
  - intros file. apply rangeBody_classifies.
Qed.

Lemma empty_entry_skipped_witness :
  forRange (rangeBody Demo.world "main") ["src/a.go"; ""; "notes.txt"] ∅ state0
  = forRange (rangeBody Demo.world "main") ["src/a.go"; "notes.txt"] ∅ state0
  /\ [CallStat "notes.txt"]
       `prefix_of` calls (snd (rangeBody Demo.world "main" ∅ "notes.txt" state0)).
Proof.
  destruct (empty_entry_skipped Demo.world "main" ∅ state0) as (_ & Hl & Hc).
  split; [exact (Hl ["src/a.go"] ["notes.txt"])|].
  apply (Hc "notes.txt"). discriminate.
Defined.

(** C9 as stated fails: the entry [" "] is blank, yet the loop classifies
    it, resolves its content and enters it in the content map. *)
Lemma blank_entry_is_processed :
  strings.TrimSpace " " = "" /\
  calls (snd (rangeBody Demo.world "main" ∅ " " state0))
  = [CallStat " "; CallExec (showArgv "main" " "); CallReadFile " "] /\
  fst (rangeBody Demo.world "main" ∅ " " state0) !! " " = Some "blank name".
Proof. repeat split; vm_compute; reflexivity. Qed.

(** C4, as the code has it: when [IsDirectory] fails for a listed path, the
    iteration for that entry leaves the content map as it was and logs
    exactly one warning, after the single [os.Stat]; the loop then goes on
    with the remaining paths, and [main] reaches the prompt whenever the two
    listing steps succeeded.  The list of changed files is handed to the
    formatter as [GetChangedFiles] returned it, the failed entry included. *)
Theorem unclassifiable_entry_skipped w ref m s file err :
  file <> "" ->
  fst (diff.IsDirectory w file s) = Err err ->
  let s' := logged ("Warning: could not determine if " +:+ file
                    +:+ " is a directory: " +:+ err)
                   (called (CallStat file) s) in
  rangeBody w ref m file s = (m, s') /\
  (forall post,
      forRange (rangeBody w ref) (file :: post) m s
      = forRange (rangeBody w ref) post m s') /\
  (forall flags s0 gitDiff changedFiles,
      fst (diff.GetGitDiff w (branch flags) s0) = Ok gitDiff ->
      fst (diff.GetChangedFiles w (branch flags) (includeUntrackedFlag flags)
             (snd (diff.GetGitDiff w (branch flags) s0))) = Ok changedFiles ->
      exists originalFiles,
        fst (main w flags s0) = Prompt gitDiff changedFiles originalFiles).
Proof.
  intros Hne Herr. cbn zeta.
  assert (Hbody : rangeBody w ref m file s
                  = (m, logged ("Warning: could not determine if " +:+ file
                                +:+ " is a directory: " +:+ err)
                               (called (CallStat file) s))).
  { rewrite rangeBody_nonempty by assumption.
    rewrite IsDirectory_eq in Herr |- *. cbn [fst] in Herr.
    destruct (os_Stat w file); [discriminate|]. congruence. }
  split; [exact Hbody|]. split.
  - intros post. cbn [forRange]. run_M. rewrite Hbody. reflexivity.
  - intros flags s0 gitDiff changedFiles Hd Hc. rewrite main_eq.
    destruct (diff.GetGitDiff w (branch flags) s0) as [[d|e] s1];
      cbn [fst snd] in *; [|discriminate].
    destruct (diff.GetChangedFiles w _ _ s1) as [[c|e] s2];
      cbn [fst] in *; [|discriminate].
    destruct (forRange _ c ∅ s2) as [om s3].
    exists om. cbn. congruence.
Qed.

Lemma unclassifiable_entry_skipped_witness :
  rangeBody Demo.world "main" ∅ "gone.txt" state0
  = (∅,
     mkState
       ["Warning: could not determine if gone.txt is a directory: stat gone.txt: no such file or directory"]
       [CallStat "gone.txt"]).
Proof.
  refine (proj1 (unclassifiable_entry_skipped Demo.world "main" ∅ state0
                   "gone.txt" _ _ eq_refl)).
  discriminate.
Defined.

(** C4 as stated fails: [gone.txt] cannot be classified, and it is still in
    the change set that [main] hands to the formatter. *)
Lemma unclassifiable_entry_stays_listed :
  fst (diff.IsDirectory Demo.world "gone.txt" state0)
  = Err "stat gone.txt: no such file or directory" /\
  exists gitDiff originalFiles,
    fst (main Demo.world Demo.flags state0)
    = Prompt gitDiff ["src/a.go"; "gone.txt"; "pkg/"; "notes.txt"] originalFiles
    /\ originalFiles !! "gone.txt" = None.
Proof.
  split; [reflexivity|].
  eexists _, _. split; [vm_compute; reflexivity|].
  vm_compute. reflexivity.
Qed.

(** ** The directory walk *)

Lemma Tree_ind (P : Tree -> Prop)
    (HNoEntry : forall n e, P (NoEntry n e))
    (HFile : forall n, P (File n))
    (HUnreadable : forall n e, P (DirUnreadable n e))
    (HDir : forall n children, Forall P children -> P (Dir n children)) :
  forall t, P t.
Proof.
  fix IH 1. intros [n e|n|n e|n children].
  - apply HNoEntry.
  - apply HFile.
  - apply HUnreadable.
  - apply HDir. induction children as [|c cs IHcs]; constructor.
    + apply IH.
    + exact IHcs.
Qed.

Lemma visibleFiles_app l1 l2 :
  visibleFiles (l1 ++ l2) = visibleFiles l1 ++ visibleFiles l2.
Proof. unfold visibleFiles. rewrite List.filter_app, map_app. reflexivity. Qed.

Lemma visibleErrors_app l1 l2 :
  visibleErrors (l1 ++ l2) = visibleErrors l1 ++ visibleErrors l2.
Proof. apply List.flat_map_app. Qed.

(** Nothing beneath a [.git] directory is visible. *)
Lemma listing_beneath path t :
  visibleFiles (listing path true t) = [] /\
  visibleErrors (listing path true t) = [].
Proof.
  revert path. induction t as [n e|n|n e|n children IH] using Tree_ind;
    intros path; try (split; reflexivity).
  cbn [listing orb].
  change (mkEntry path true None true :: ?l)
    with ([mkEntry path true None true] ++ l).
  rewrite visibleFiles_app, visibleErrors_app. cbn [app].
  change (visibleFiles [mkEntry path true None true]) with (@nil string).
  change (visibleErrors [mkEntry path true None true]) with (@nil string).
  cbn [app].
  induction IH as [|c cs Hc _ IHcs]; [split; reflexivity|].
  cbn [List.flat_map]. rewrite visibleFiles_app, visibleErrors_app.
  destruct (Hc (filepath.Join path (treeName c))) as [-> ->].
  exact IHcs.
Qed.

Lemma childrenListing_beneath path cs :
  visibleFiles (childrenListing path true cs) = [] /\
  visibleErrors (childrenListing path true cs) = [].
Proof.
  induction cs as [|c cs IH]; [split; reflexivity|].
  unfold childrenListing. cbn [List.flat_map].
  rewrite visibleFiles_app, visibleErrors_app.
  destruct (listing_beneath (filepath.Join path (treeName c)) c) as [-> ->].
  exact IH.
Qed.

Lemma skipOf_dir c fileInfo :
  skipOf c = Some filepath.SkipDir -> lstat c = Ok fileInfo ->
  IsDir fileInfo = true.
Proof.
  destruct c; cbn; try discriminate; intros _ [= <-]; reflexivity.
Qed.

Lemma skipOf_cases c : skipOf c = None \/ skipOf c = Some filepath.SkipDir.
Proof.
  destruct c; cbn; auto. destruct (String.eqb _ _); auto.
Qed.

(** [Walk] hands its function a nil [info] only together with an error:
    two functions that agree on all other arguments are walked alike. *)
Lemma rangeNames_ext {S} (f g : filepath.WalkFunc (S := S)) cs :
  (forall path info err s,
      info <> None \/ err <> None -> f path info err s = g path info err s) ->
  Forall (fun c => forall path s,
              filepath.walk f path c s = filepath.walk g path c s) cs ->
  forall path s,
    filepath.rangeNames f (filepath.walk f) path cs s
    = filepath.rangeNames g (filepath.walk g) path cs s.
Proof.
  intros Hfg. induction 1 as [|c cs Hc _ IH]; intros path s; [reflexivity|].
  cbn [filepath.rangeNames].
  destruct (lstat c).
  - rewrite Hc. destruct (filepath.walk g _ c s) as [err s'].
    destruct (_ && _); [reflexivity|apply IH].
  - rewrite Hfg by (right; discriminate).
    destruct (g _ None _ s) as [err s'].
    destruct (_ && _); [reflexivity|apply IH].
Qed.

Lemma walk_ext {S} (f g : filepath.WalkFunc (S := S)) :
  (forall path info err s,
      info <> None \/ err <> None -> f path info err s = g path info err s) ->
  forall t root s, filepath.Walk f root t s = filepath.Walk g root t s.
Proof.
  intros Hfg.
  assert (Hw : forall t path s,
             filepath.walk f path t s = filepath.walk g path t s).
  { induction t as [n e|n|n e|n children IH] using Tree_ind; intros path s;
      cbn [filepath.walk];
      try (apply Hfg; first [left; discriminate | right; discriminate]).
    rewrite Hfg by (left; discriminate).
    destruct (g path _ None s) as [err1 s1].
    destruct (filepath.isNil err1); [|reflexivity].
    apply rangeNames_ext; assumption. }
  intros t root s. unfold filepath.Walk.
  destruct (lstat t); [rewrite Hw; reflexivity|].
  rewrite Hfg by (right; discriminate). reflexivity.
Qed.

Lemma rangeNames_spec cs :
  Forall (fun c => forall path files,
              walk_post (listing path false c) (skipOf c) files
                        (filepath.walk diff.walkFn path c files)) cs ->
  forall path files,
    walk_post (childrenListing path false cs) None files
      (filepath.rangeNames diff.walkFn (filepath.walk diff.walkFn) path cs
         files).
Proof.
  induction 1 as [|c cs Hc _ IH]; intros path files.
  - unfold walk_post. cbn. rewrite app_nil_r. reflexivity.
  - specialize (Hc (filepath.Join path (treeName c)) files).
    unfold walk_post in *. unfold childrenListing in *.
    cbn [List.flat_map filepath.rangeNames].
    rewrite visibleErrors_app, visibleFiles_app.
    destruct (lstat c) as [fileInfo|e] eqn:Hl.
    + destruct (filepath.walk diff.walkFn _ c files) as [err files'].
      destruct (visibleErrors (listing _ false c)) as [|e es].
      * injection Hc as -> ->. cbn [app].
        assert (Hgo : negb (filepath.isNil (skipOf c))
                      && (negb (IsDir fileInfo)
                          || negb (filepath.isSkipDir (skipOf c))) = false).
        { destruct (skipOf_cases c) as [Hs|Hs]; rewrite Hs; [reflexivity|].
          rewrite (skipOf_dir _ _ Hs Hl). reflexivity. }
        rewrite Hgo.
        specialize (IH path (files ++ visibleFiles
                               (listing (filepath.Join path (treeName c)) false c))).
        destruct (visibleErrors _); [|exact IH].
        rewrite IH, app_assoc. reflexivity.
      * cbn [fst] in Hc. subst err. cbn. rewrite orb_true_r. reflexivity.
    + destruct c; try discriminate. injection Hl as ->. reflexivity.
Qed.

Lemma walk_spec t :
  forall path files,
    walk_post (listing path false t) (skipOf t) files
      (filepath.walk diff.walkFn path t files).
Proof.
  induction t as [n e|n|n e|n children IH] using Tree_ind;
    intros path files; try reflexivity.
  cbn [filepath.walk diff.walkFn IsDir Name andb listing skipOf orb].
  destruct (String.eqb n ".git").
  - unfold walk_post.
    change (mkEntry path true None false :: ?l)
      with ([mkEntry path true None false] ++ l).
    rewrite visibleErrors_app, visibleFiles_app.
    destruct (childrenListing_beneath path children) as [Hf He].
    unfold childrenListing in Hf, He. rewrite Hf, He. cbn.
    rewrite app_nil_r. reflexivity.
  - cbn [negb filepath.isNil].
    exact (rangeNames_spec children IH path files).
Qed.

(** [GetAllFilesInDirectory] in terms of the listing of the tree: the first
    visible error if there is one, else the visible files. *)
Lemma GetAllFilesInDirectory_spec w dirPath s :
  fst (diff.GetAllFilesInDirectory w dirPath s) =
  match visibleErrors (listing dirPath false (walk_root w dirPath)) with
  | e :: _ => Err ("error walking directory " +:+ dirPath +:+ ": " +:+ e)
  | [] => Ok (visibleFiles (listing dirPath false (walk_root w dirPath)))
  end.
Proof.
  unfold diff.GetAllFilesInDirectory, filepath.Walk. run_M.
  pose proof (walk_spec (walk_root w dirPath) dirPath []) as Hw.
  unfold walk_post in Hw.
  destruct (lstat (walk_root w dirPath)) as [fileInfo|e] eqn:Hl.
  - destruct (filepath.walk diff.walkFn dirPath _ []) as [err files].
    destruct (visibleErrors _) as [|e es].
    + injection Hw as -> ->.
      destruct (skipOf_cases (walk_root w dirPath)) as [Hs|Hs]; rewrite Hs;
        reflexivity.
    + cbn [fst] in Hw. subst err. reflexivity.
  - destruct (walk_root w dirPath); try discriminate.
    injection Hl as ->. reflexivity.
Qed.

Lemma visibleFiles_In p l :
  In p (visibleFiles l) <->
  exists e, In e l /\ entry_path e = p /\ entry_isdir e = false /\
            beneath_git e = false /\ entry_err e = None.
Proof.
  unfold visibleFiles. rewrite in_map_iff. split.
  - intros (e & Hp & Hin). apply List.filter_In in Hin as [Hin Hv].
    exists e. unfold isVisibleFile in Hv.
    destruct (entry_isdir e), (beneath_git e), (entry_err e);
      try discriminate. auto.
  - intros (e & Hin & Hp & Hd & Hb & He). exists e. split; [exact Hp|].
    apply List.filter_In. split; [exact Hin|].
    unfold isVisibleFile. rewrite Hd, Hb, He. reflexivity.
Qed.

Lemma NoDup_map_eq {A B} (f : A -> B) l x y :
  List.NoDup (map f l) -> In x l -> In y l -> f x = f y -> x = y.
Proof.
  induction l as [|a l IH]; cbn [map]; intros Hnd Hx Hy Hf; [destruct Hx|].
  apply List.NoDup_cons_iff in Hnd as [Hna Hnd].
  destruct Hx as [->|Hx], Hy as [->|Hy]; auto.
  - exfalso. apply Hna. rewrite Hf. apply in_map. exact Hy.
  - exfalso. apply Hna. rewrite <- Hf. apply in_map. exact Hx.
Qed.

(** C5, as the code has it: every path that [GetAllFilesInDirectory]
    returns is the path of an entry of the tree that [lstat] does not call a
    directory (the test of the closure is [info.IsDir()]) and that does not
    lie beneath a directory named [.git].  Paths being unambiguous, no
    entry that [lstat] calls a directory and nothing beneath a [.git]
    directory is in the result.  The entry need not be a regular file. *)
Theorem listed_files_outside_git w dirPath s files :
  fst (diff.GetAllFilesInDirectory w dirPath s) = Ok files ->
  let all := listing dirPath false (walk_root w dirPath) in
  (forall p, In p files ->
     exists e, In e all /\ entry_path e = p /\
               entry_isdir e = false /\ beneath_git e = false) /\
  (List.NoDup (map entry_path all) ->
   forall e, In e all -> entry_isdir e = true \/ beneath_git e = true ->
             ~ In (entry_path e) files).
Proof.
  intros Hok. cbn zeta. rewrite GetAllFilesInDirectory_spec in Hok.
  destruct (visibleErrors _); [|discriminate]. injection Hok as <-.
  split.
  - intros p Hp. apply visibleFiles_In in Hp as (e & ? & ? & ? & ? & ?).
    exists e. auto.
  - intros Hnd e Hin Hbad Hp.
    apply visibleFiles_In in Hp as (e' & Hin' & Hpath & Hd & Hb & _).
    assert (e' = e) as -> by (eapply NoDup_map_eq; eauto).
    destruct Hbad; congruence.
Qed.

Lemma listed_files_outside_git_witness :
  fst (diff.GetAllFilesInDirectory Demo.world "pkg/" state0)
  = Ok ["pkg/a.go"; "pkg/sub/b.go"] /\
  ~ In "pkg/.git/ignored" ["pkg/a.go"; "pkg/sub/b.go"] /\
  ~ In "pkg/sub" ["pkg/a.go"; "pkg/sub/b.go"].
Proof.
  assert (Hok : fst (diff.GetAllFilesInDirectory Demo.world "pkg/" state0)
                = Ok ["pkg/a.go"; "pkg/sub/b.go"]) by reflexivity.
  destruct (listed_files_outside_git Demo.world "pkg/" state0 _ Hok)
    as [_ Hout].
  assert (Hnd : List.NoDup
                  (map entry_path (listing "pkg/" false (walk_root Demo.world "pkg/")))).
  { vm_compute. repeat (constructor; [cbn; intuition discriminate|]).
    constructor. }
  split; [exact Hok|]. split.
  - apply (Hout Hnd (mkEntry "pkg/.git/ignored" false None true)).
    + vm_compute. auto.
    + right. reflexivity.
  - apply (Hout Hnd (mkEntry "pkg/sub" true None false)).
    + vm_compute. auto 10.
    + left. reflexivity.
Defined.

(** C5 as stated fails: [top/lnk] is a symbolic link to a directory.  The
    walk returns it, and it is not the path of a regular file: the
    program's own [IsDirectory] calls it a directory. *)
Lemma symlink_to_directory_listed :
  fst (diff.GetAllFilesInDirectory Demo3.linked "top" state0)
  = Ok ["top/lnk"] /\
  fst (diff.IsDirectory Demo3.linked "top/lnk" state0) = Ok true.
Proof. split; reflexivity. Qed.

(** C6: an error of [lstat] or of reading a directory that the walk can
    meet (it is not hidden inside a [.git] directory) makes
    [GetAllFilesInDirectory] fail: it returns the first such error, wrapped,
    and no list.  So when it returns a list, the walk met no error and the
    list is complete. *)
Theorem walk_error_aborts w dirPath s :
  let all := listing dirPath false (walk_root w dirPath) in
  (forall e rest,
      visibleErrors all = e :: rest ->
      fst (diff.GetAllFilesInDirectory w dirPath s)
      = Err ("error walking directory " +:+ dirPath +:+ ": " +:+ e)) /\
  (forall en msg,
      In en all -> entry_err en = Some msg -> beneath_git en = false ->
      is_Ok (fst (diff.GetAllFilesInDirectory w dirPath s)) = false) /\
  (forall files,
      fst (diff.GetAllFilesInDirectory w dirPath s) = Ok files ->
      visibleErrors all = [] /\ files = visibleFiles all).
Proof.
  cbn zeta. rewrite GetAllFilesInDirectory_spec. split; [|split].
  - intros e rest ->. reflexivity.
  - intros en msg Hin Herr Hb.
    destruct (visibleErrors _) as [|e es] eqn:He; [|reflexivity].
    exfalso. unfold visibleErrors in He.
    assert (Hm : In msg (List.flat_map errorOf
                           (listing dirPath false (walk_root w dirPath)))).
    { apply in_flat_map. exists en. split; [exact Hin|].
      unfold errorOf. rewrite Herr, Hb. left. reflexivity. }
    rewrite He in Hm. destruct Hm.
  - intros files. destruct (visibleErrors _); [|discriminate].
    intros [= <-]. auto.
Qed.

Lemma walk_error_aborts_witness :
  fst (diff.GetAllFilesInDirectory Demo.locked "pkg/" state0)
  = Err "error walking directory pkg/: open pkg/private: permission denied".
Proof.
  destruct (walk_error_aborts Demo.locked "pkg/" state0) as (Hfirst & _ & _).
  apply (Hfirst _ []). reflexivity.
Defined.


(** ** The content map and the diagnostics of a run *)

Lemma processFile_resolve w file branch s :
  fst (processFile w file branch s) = resolve w branch file /\
  log_lines (snd (processFile w file branch s))
  = log_lines s ++ resolveWarning w branch file.
Proof.
  rewrite processFile_eq, GetFileContent_eq. unfold resolve, resolveWarning.
  destruct (run_err _) as [e|].
  - rewrite GetLocalFileContent_eq.
    destruct (os_ReadFile w file) as [c|e2]; cbn; rewrite ?app_nil_r; auto.
  - cbn. rewrite app_nil_r. auto.
Qed.

Lemma forRange_cons {A B} (body : B -> A -> M B) x l acc s :
  forRange body (x :: l) acc s =
  let '(acc', s') := body acc x s in forRange body l acc' s'.
Proof. reflexivity. Qed.

Lemma dirBody_eq w branch m f s :
  dirBody w branch m f s =
  let '(c, s1) := processFile w f branch s in (<[f := c]> m, s1).
Proof. reflexivity. Qed.

Lemma dirLoop_record w branch dirFiles m s :
  fst (forRange (dirBody w branch) dirFiles m s)
  = record w branch dirFiles m /\
  log_lines (snd (forRange (dirBody w branch) dirFiles m s))
  = log_lines s ++ List.flat_map (resolveWarning w branch) dirFiles.
Proof.
  revert m s. induction dirFiles as [|f fs IH]; intros m s.
  - cbn. rewrite app_nil_r. auto.
  - rewrite forRange_cons, dirBody_eq.
    destruct (processFile_resolve w f branch s) as [Hc Hl].
    destruct (processFile w f branch s) as [c s1]. cbn [fst snd] in Hc, Hl.
    destruct (IH (<[f := c]> m) s1) as [IHm IHl].
    rewrite IHm, IHl, Hl, Hc. cbn [List.flat_map].
    rewrite app_assoc. auto.
Qed.

Lemma rangeBody_record w branch m file s :
  fst (rangeBody w branch m file s) = record w branch (expand w file) m /\
  log_lines (snd (rangeBody w branch m file s))
  = log_lines s ++ warnings w branch file.
Proof.
  unfold expand, warnings.
  destruct (String.eqb_spec file "") as [->|Hne].
  { rewrite rangeBody_empty. cbn. rewrite app_nil_r. auto. }
  rewrite rangeBody_nonempty by assumption. rewrite IsDirectory_eq.
  destruct (os_Stat w file) as [[n [|]]|e]; cbn [IsDir].
  - pose proof (GetAllFilesInDirectory_spec w file (called (CallStat file) s))
      as Hf.
    pose proof (GetAllFilesInDirectory_state w file (called (CallStat file) s))
      as Hs.
    destruct (diff.GetAllFilesInDirectory w file _) as [r s2].
    cbn [fst snd] in Hf, Hs. subst s2.
    destruct (visibleErrors _) as [|e es]; subst r.
    + exact (dirLoop_record w branch _ m _).
    + cbn. auto.
  - destruct (processFile_resolve w file branch (called (CallStat file) s))
      as [Hc Hl].
    destruct (processFile w file branch _) as [c s2]. cbn [fst snd] in *.
    subst c. auto.
  - cbn. auto.
Qed.

Lemma forRange_record w branch l m s :
  fst (forRange (rangeBody w branch) l m s)
  = record w branch (List.flat_map (expand w) l) m /\
  log_lines (snd (forRange (rangeBody w branch) l m s))
  = log_lines s ++ List.flat_map (warnings w branch) l.
Proof.
  revert m s. induction l as [|file l IH]; intros m s.
  - cbn. rewrite app_nil_r. auto.
  - rewrite forRange_cons.
    destruct (rangeBody_record w branch m file s) as [Hm Hl].
    destruct (rangeBody w branch m file s) as [m1 s1]. cbn [fst snd] in Hm, Hl.
    destruct (IH m1 s1) as [IHm IHl].
    rewrite IHm, IHl, Hm, Hl. cbn [List.flat_map].
    unfold record. rewrite fold_left_app, app_assoc. auto.
Qed.

Lemma record_lookup_notin w branch paths m k :
  ~ In k paths -> record w branch paths m !! k = m !! k.
Proof.
  unfold record. revert m. induction paths as [|p ps IH]; intros m Hn;
    [reflexivity|].
  cbn [fold_left]. rewrite IH by (intros H; apply Hn; right; exact H).
  apply lookup_insert_ne. intros ->. apply Hn. left. reflexivity.
Qed.

Lemma record_lookup_in w branch paths m k :
  In k paths -> record w branch paths m !! k = Some (resolve w branch k).
Proof.
  revert m. induction paths as [|p ps IH]; intros m Hin; [destruct Hin|].
  destruct (in_dec string_dec k ps) as [Hps|Hps].
  - apply (IH (<[p := resolve w branch p]> m) Hps).
  - destruct Hin as [->|Hin]; [|contradiction].
    change (record w branch (k :: ps) m)
      with (record w branch ps (<[k := resolve w branch k]> m)).
    rewrite record_lookup_notin by assumption. apply lookup_insert_eq.
Qed.

Lemma GetGitDiff_eq w branch s :
  diff.GetGitDiff w branch s =
  (match run_err (exec_Run w (diffArgv branch)) with
   | Some err =>
       Err ("error executing git diff: " +:+ err +:+ ", "
            +:+ stderr (exec_Run w (diffArgv branch)))
   | None => Ok (stdout (exec_Run w (diffArgv branch)))
   end,
   called (CallExec (diffArgv branch)) s).
Proof.
  unfold diff.GetGitDiff, diff.Run, diffArgv. run_M.
  destruct (run_err _); reflexivity.
Qed.

Lemma GetChangedFiles_log w branch includeUntracked s :
  log_lines (snd (diff.GetChangedFiles w branch includeUntracked s))
  = log_lines s.
Proof.
  rewrite GetChangedFiles_eq. destruct (run_err _); [reflexivity|].
  cbn zeta. destruct includeUntracked; [|reflexivity].
  rewrite GetUntrackedFiles_eq. destruct (run_err _); reflexivity.
Qed.

(** X1: when [main] reaches the prompt, the content map it hands over has
    exactly the expanded paths of the change set as keys (a path that is not
    a directory stands for itself, a directory for the visible files below
    it, an entry that is empty or cannot be classified or walked for
    nothing), and every key is mapped to the resolved content of that
    path. *)
Theorem main_content_map w flags s gitDiff changedFiles originalFiles :
  fst (main w flags s) = Prompt gitDiff changedFiles originalFiles ->
  forall k v,
    originalFiles !! k = Some v <->
    In k (List.flat_map (expand w) changedFiles) /\
    v = resolve w (branch flags) k.
Proof.
  rewrite main_eq.
  destruct (diff.GetGitDiff w (branch flags) s) as [[d|e] s1];
    [|discriminate].
  destruct (diff.GetChangedFiles w _ _ s1) as [[c|e] s2]; [|discriminate].
  destruct (forRange_record w (branch flags) c ∅ s2) as [Hm _].
  destruct (forRange _ c ∅ s2) as [om s3]. cbn [fst] in *.
  intros [= <- <- <-] k v. subst om.
  destruct (in_dec string_dec k (List.flat_map (expand w) c)) as [Hin|Hn].
  - rewrite record_lookup_in by assumption. split.
    + intros [= <-]. auto.
    + intros [_ ->]. reflexivity.
  - rewrite record_lookup_notin, lookup_empty by assumption. split.
    + discriminate.
    + intros [Hin _]. contradiction.
Qed.

Lemma main_content_map_witness :
  exists gitDiff changedFiles originalFiles,
    fst (main Demo.world Demo.flags state0)
    = Prompt gitDiff changedFiles originalFiles /\
    originalFiles !! "pkg/a.go" = Some "package pkg" /\
    originalFiles !! "pkg/" = None.
Proof.
  destruct (fst (main Demo.world Demo.flags state0)) as [|d c m] eqn:E;
    [vm_compute in E; discriminate|].
  exists d, c, m. split; [reflexivity|].
  pose proof (main_content_map Demo.world Demo.flags state0 d c m E) as H.
  assert (Hc : c = ["src/a.go"; "gone.txt"; "pkg/"; "notes.txt"]).
  { rewrite main_eq in E. vm_compute in E. congruence. }
  subst c. split.
  - apply H. split; [|reflexivity]. vm_compute. auto 10.
  - destruct (m !! "pkg/") as [v|] eqn:Ev; [|reflexivity].
    apply H in Ev as [Hin _]. vm_compute in Hin.
    exfalso. intuition discriminate.
Defined.

(** X2: when [main] reaches the prompt, the lines it has logged are the
    warnings of the entries of the change set, entry by entry in order: one
    for an entry that cannot be classified, one for a directory that cannot
    be walked, and one for every resolved path that can be read from neither
    the branch nor the working tree.  Nothing else is logged. *)
Theorem main_diagnostics w flags s gitDiff changedFiles originalFiles :
  fst (main w flags s) = Prompt gitDiff changedFiles originalFiles ->
  log_lines (snd (main w flags s))
  = log_lines s ++ List.flat_map (warnings w (branch flags)) changedFiles.
Proof.
  rewrite main_eq. rewrite GetGitDiff_eq.
  destruct (run_err _); [discriminate|].
  pose proof (GetChangedFiles_log w (branch flags) (includeUntrackedFlag flags)
                (called (CallExec (diffArgv (branch flags))) s)) as Hlog.
  destruct (diff.GetChangedFiles w _ _ _) as [[c|e] s2]; [|discriminate].
  destruct (forRange_record w (branch flags) c ∅ s2) as [_ Hl].
  destruct (forRange _ c ∅ s2) as [om s3]. cbn [fst snd] in *.
  intros [= _ <- _]. rewrite Hl, Hlog. reflexivity.
Qed.

Lemma main_diagnostics_witness :
  log_lines (snd (main Demo.world Demo.flags state0))
  = ["Warning: could not determine if gone.txt is a directory: stat gone.txt: no such file or directory";
     "Warning: cannot retrieve content for pkg/sub/b.go: error reading local file pkg/sub/b.go: open pkg/sub/b.go: no such file or directory"].
Proof.
  destruct (fst (main Demo.world Demo.flags state0)) as [|d c m] eqn:E;
    [vm_compute in E; discriminate|].
  rewrite (main_diagnostics Demo.world Demo.flags state0 d c m E).
  assert (Hc : c = ["src/a.go"; "gone.txt"; "pkg/"; "notes.txt"]).
  { rewrite main_eq in E. vm_compute in E. congruence. }
  subst c. vm_compute. reflexivity.
Defined.

(** X3: a directory entry whose walk fails is skipped as a whole: the
    content map is left as it was, even when the walk had already found
    files before the error, no content is resolved, and exactly one warning
    is logged.  The only external calls of the iteration are the [os.Stat]
    and the walk. *)
Theorem unreadable_directory_skipped w branch m s file err :
  file <> "" ->
  fst (diff.IsDirectory w file s) = Ok true ->
  fst (diff.GetAllFilesInDirectory w file (called (CallStat file) s))
  = Err err ->
  rangeBody w branch m file s
  = (m, logged ("Warning: could not read directory " +:+ file +:+ ": "
                +:+ err)
               (called (CallWalk file) (called (CallStat file) s))).
Proof.
  intros Hne Hdir Hwalk. rewrite rangeBody_nonempty by assumption.
  rewrite IsDirectory_eq in Hdir |- *. cbn [fst] in Hdir.
  destruct (os_Stat w file) as [fi|]; [|discriminate].
  injection Hdir as ->.
  pose proof (GetAllFilesInDirectory_state w file (called (CallStat file) s))
    as Hs.
  destruct (diff.GetAllFilesInDirectory w file _) as [r s2].
  cbn [fst snd] in *. subst r s2. reflexivity.
Qed.

Lemma unreadable_directory_skipped_witness :
  rangeBody Demo.locked "main" ∅ "pkg/" state0
  = (∅,
     mkState
       ["Warning: could not read directory pkg/: error walking directory pkg/: open pkg/private: permission denied"]
       [CallStat "pkg/"; CallWalk "pkg/"]).
Proof.
  refine (unreadable_directory_skipped Demo.locked "main" ∅ state0 "pkg/" _
            _ eq_refl eq_refl).
  discriminate.
Defined.

(** ** The external calls of a run *)

Lemma adds_refl P s : adds P s s.
Proof. exists []. rewrite app_nil_r. auto. Qed.

Lemma adds_trans P s1 s2 s3 : adds P s1 s2 -> adds P s2 s3 -> adds P s1 s3.
Proof.
  intros (r1 & E1 & F1) (r2 & E2 & F2). exists (r1 ++ r2).
  rewrite E2, E1, app_assoc. split; [reflexivity|].
  apply Forall_app. auto.
Qed.

Lemma adds_called (P : Call -> Prop) c s : P c -> adds P s (called c s).
Proof. intros Hc. exists [c]. split; [reflexivity|]. repeat constructor. exact Hc. Qed.

Lemma adds_logged P msg s s' : adds P s s' -> adds P s (logged msg s').
Proof. intros (r & E & F). exists r. auto. Qed.

Lemma adds_weaken (P Q : Call -> Prop) s s' :
  (forall c, P c -> Q c) -> adds P s s' -> adds Q s s'.
Proof.
  intros HPQ (r & E & F). exists r. split; [exact E|].
  eapply Forall_impl; eauto.
Qed.

Lemma processFile_adds w file branch s :
  adds (isLoopCall branch) s (snd (processFile w file branch s)).
Proof.
  assert (Hshow : isLoopCall branch (CallExec (showArgv branch file)))
    by (exists file; reflexivity).
  rewrite processFile_eq, GetFileContent_eq.
  destruct (run_err _); [|apply adds_called; exact Hshow].
  rewrite GetLocalFileContent_eq.
  assert (Hboth : adds (isLoopCall branch) s
                    (called (CallReadFile file)
                       (called (CallExec (showArgv branch file)) s))).
  { eapply adds_trans; [apply adds_called; exact Hshow|].
    apply adds_called. exact I. }
  destruct (os_ReadFile w file); cbn [snd]; [exact Hboth|].
  apply adds_logged. exact Hboth.
Qed.

Lemma forRange_adds {A B} P (body : B -> A -> M B) :
  (forall acc x s, adds P s (snd (body acc x s))) ->
  forall l acc s, adds P s (snd (forRange body l acc s)).
Proof.
  intros Hbody l. induction l as [|x l IH]; intros acc s; [apply adds_refl|].
  rewrite forRange_cons. specialize (Hbody acc x s).
  destruct (body acc x s) as [acc1 s1]. eapply adds_trans; [exact Hbody|].
  apply IH.
Qed.

Lemma rangeBody_adds w branch m file s :
  adds (isLoopCall branch) s (snd (rangeBody w branch m file s)).
Proof.
  destruct (String.eqb_spec file "") as [->|Hne];
    [rewrite rangeBody_empty; apply adds_refl|].
  rewrite rangeBody_nonempty by assumption. rewrite IsDirectory_eq.
  assert (Hstat : adds (isLoopCall branch) s (called (CallStat file) s))
    by (apply adds_called; exact I).
  destruct (os_Stat w file) as [[n [|]]|e]; cbn [IsDir].
  - pose proof (GetAllFilesInDirectory_state w file (called (CallStat file) s))
      as Hs.
    destruct (diff.GetAllFilesInDirectory w file _) as [[fs|e] s2];
      cbn [snd] in Hs; subst s2.
    + eapply adds_trans; [exact Hstat|].
      eapply adds_trans; [apply (adds_called _ (CallWalk file)); exact I|].
      apply (forRange_adds _ (dirBody w branch)).
      intros acc x s0. rewrite dirBody_eq.
      pose proof (processFile_adds w x branch s0) as Hp.
      destruct (processFile w x branch s0); exact Hp.
    + apply adds_logged. eapply adds_trans; [exact Hstat|].
      apply adds_called. exact I.
  - eapply adds_trans; [exact Hstat|].
    pose proof (processFile_adds w file branch (called (CallStat file) s))
      as Hp.
    destruct (processFile w file branch _); exact Hp.
  - apply adds_logged. exact Hstat.
Qed.

Lemma GetChangedFiles_adds w branch includeUntracked s :
  adds (fun c => c = CallExec (changedArgv branch) \/
                 (includeUntracked = true /\ c = CallExec untrackedArgv))
       s (snd (diff.GetChangedFiles w branch includeUntracked s)).
Proof.
  rewrite GetChangedFiles_eq.
  assert (H1 : adds (fun c => c = CallExec (changedArgv branch) \/
                              (includeUntracked = true /\
                               c = CallExec untrackedArgv))
                 s (called (CallExec (changedArgv branch)) s))
    by (apply adds_called; auto).
  destruct (run_err _); [exact H1|]. cbn zeta.
  destruct includeUntracked; [|exact H1].
  rewrite GetUntrackedFiles_eq.
  assert (H2 : adds (fun c => c = CallExec (changedArgv branch) \/
                              (true = true /\ c = CallExec untrackedArgv))
                 s (called (CallExec untrackedArgv)
                      (called (CallExec (changedArgv branch)) s))).
  { eapply adds_trans; [exact H1|]. apply adds_called. auto. }
  destruct (run_err _); exact H2.
Qed.

(** Up to the prompt, the commands that [main] executes are the listing
    commands and [git show]; without untracked files, [git ls-files] is not
    among them. *)
Lemma main_commands w flags s :
  exists rest,
    calls (snd (main w flags s)) = calls s ++ rest /\
    Forall (fun c => isListingCall (branch flags) c \/
                     isLoopCall (branch flags) c) rest /\
    (includeUntrackedFlag flags = false ->
     ~ In (CallExec untrackedArgv) rest).
Proof.
  set (P := fun c =>
              (c = CallExec (diffArgv (branch flags)) \/
               c = CallExec (changedArgv (branch flags)) \/
               (includeUntrackedFlag flags = true /\
                c = CallExec untrackedArgv)) \/
              isLoopCall (branch flags) c).
  assert (Hadds : adds P s (snd (main w flags s))).
  { rewrite main_eq, GetGitDiff_eq.
    assert (H1 : adds P s (called (CallExec (diffArgv (branch flags))) s))
      by (apply adds_called; left; auto).
    destruct (run_err _); [apply adds_logged; exact H1|].
    pose proof (GetChangedFiles_adds w (branch flags)
                  (includeUntrackedFlag flags)
                  (called (CallExec (diffArgv (branch flags))) s)) as H2.
    apply (adds_weaken _ P) in H2; [|intros c [?|?]; left; auto].
    destruct (diff.GetChangedFiles w _ _ _) as [[c|e] s2]; cbn [snd] in H2.
    - pose proof (forRange_adds (isLoopCall (branch flags))
                    (rangeBody w (branch flags))
                    (rangeBody_adds w (branch flags)) c ∅ s2) as H3.
      apply (adds_weaken _ P) in H3; [|intros ? ?; right; assumption].
      destruct (forRange _ c ∅ s2) as [om s3].
      eapply adds_trans; [exact H1|]. eapply adds_trans; eassumption.
    - apply adds_logged. eapply adds_trans; eassumption. }
  destruct Hadds as (rest & E & F). exists rest. split; [exact E|]. split.
  - eapply Forall_impl; [exact F|]. intros c [[?|[?|[_ ?]]]|?];
      unfold isListingCall; auto.
  - intros Hno Hin. rewrite Forall_forall in F.
    apply list_elem_of_In in Hin. destruct (F _ Hin) as [[H|[H|[H _]]]|H].
    + discriminate H.
    + discriminate H.
    + congruence.
    + destruct H as [file H]. discriminate H.
Qed.

(** [main] fails before the prompt exactly when a listing step fails; it
    has then logged one line and run listing commands only. *)
Lemma main_fatal_iff w flags s :
  (fst (main w flags s) = Fatal <->
   run_err (exec_Run w (diffArgv (branch flags))) <> None \/
   run_err (exec_Run w (changedArgv (branch flags))) <> None \/
   (includeUntrackedFlag flags = true /\
    run_err (exec_Run w untrackedArgv) <> None)) /\
  (fst (main w flags s) = Fatal ->
   (exists msg, log_lines (snd (main w flags s)) = log_lines s ++ [msg]) /\
   adds (isListingCall (branch flags)) s (snd (main w flags s))).
Proof.
  rewrite main_eq, GetGitDiff_eq, GetChangedFiles_eq.
  assert (H1 : adds (isListingCall (branch flags)) s
                 (called (CallExec (diffArgv (branch flags))) s))
    by (apply adds_called; left; reflexivity).
  assert (H2 : adds (isListingCall (branch flags)) s
                 (called (CallExec (changedArgv (branch flags)))
                    (called (CallExec (diffArgv (branch flags))) s))).
  { eapply adds_trans; [exact H1|]. apply adds_called. right. left.
    reflexivity. }
  destruct (run_err (exec_Run w (diffArgv (branch flags)))) as [e1|].
  { split.
    - split; [intros _; left; discriminate|reflexivity].
    - intros _. split; [eexists; reflexivity|].
      apply adds_logged. exact H1. }
  destruct (run_err (exec_Run w (changedArgv (branch flags)))) as [e2|].
  { split.
    - split; [intros _; right; left; discriminate|reflexivity].
    - intros _. split; [eexists; reflexivity|].
      apply adds_logged. exact H2. }
  cbn zeta. destruct (includeUntrackedFlag flags).
  - rewrite GetUntrackedFiles_eq.
    destruct (run_err (exec_Run w untrackedArgv)) as [e3|].
    + split.
      * split; [intros _; right; right; split; [reflexivity|discriminate]
               |reflexivity].
      * intros _. split; [eexists; reflexivity|].
        apply adds_logged. eapply adds_trans; [exact H2|].
        apply adds_called. right. right. reflexivity.
    + destruct (forRange _ _ ∅ _) as [om s3]. cbn [fst]. split.
      * split; [discriminate|]. intros [H|[H|[_ H]]]; contradiction.
      * discriminate.
  - destruct (forRange _ _ ∅ _) as [om s3]. cbn [fst]. split.
    + split; [discriminate|].
      intros [H|[H|[H _]]]; [contradiction|contradiction|discriminate].
    + discriminate.
Qed.

(** ** More on the lines of tool output *)

Lemma append_nil_r s : s +:+ "" = s.
Proof.
  induction s as [|c s IH]; [reflexivity|].
  change (String c (s +:+ "") = String c s). rewrite IH. reflexivity.
Qed.

Lemma append_assoc a b c : (a +:+ b) +:+ c = a +:+ (b +:+ c).
Proof.
  induction a as [|x a IH]; [reflexivity|].
  change (String x ((a +:+ b) +:+ c) = String x (a +:+ (b +:+ c))).
  rewrite IH. reflexivity.
Qed.

Lemma rev_app_append s t : String.rev_app s t = String.rev s +:+ t.
Proof.
  unfold String.rev. revert t. induction s as [|c s IH]; intros t;
    [reflexivity|].
  cbn [String.rev_app]. rewrite (IH (String c "")), IH, append_assoc.
  reflexivity.
Qed.

Lemma rev_cons c s : String.rev (String c s) = String.rev s +:+ String c "".
Proof. unfold String.rev at 1. cbn [String.rev_app]. apply rev_app_append. Qed.

Lemma rev_append a b : String.rev (a +:+ b) = String.rev b +:+ String.rev a.
Proof.
  induction a as [|c a IH].
  - change ("" +:+ b) with b. change (String.rev "") with "".
    rewrite append_nil_r. reflexivity.
  - change (String c a +:+ b) with (String c (a +:+ b)).
    rewrite !rev_cons, IH, append_assoc. reflexivity.
Qed.

Lemma rev_involutive s : String.rev (String.rev s) = s.
Proof.
  induction s as [|c s IH]; [reflexivity|].
  rewrite rev_cons, rev_append, IH. reflexivity.
Qed.

(** What [trimFront] leaves does not start with a one-byte white space, and
    is the end of what it was given. *)
Lemma trimFront_spec back n :
  forall s, String.length s <= n ->
    (exists z, s = z +:+ strings.trimFront back s) /\
    match strings.trimFront back s with
    | EmptyString => True
    | String c _ => strings.asciiSpace c = false
    end.
Proof.
  induction n as [|n IH]; intros s Hn.
  { destruct s; [|cbn in Hn; lia]. split; [exists ""; reflexivity|exact I]. }
  assert (Hsuf : forall pre t,
             String.length t <= n -> s = pre +:+ t ->
             (exists z, s = z +:+ strings.trimFront back t) /\
             match strings.trimFront back t with
             | EmptyString => True
             | String c _ => strings.asciiSpace c = false
             end).
  { intros pre t Ht ->. destruct (IH t Ht) as [[z Hz] Hh]. split; [|exact Hh].
    exists (pre +:+ z). rewrite append_assoc, <- Hz. reflexivity. }
  destruct s as [|c1 s1]; [split; [exists ""; reflexivity|exact I]|].
  cbn [String.length] in Hn. cbn [strings.trimFront].
  destruct (strings.asciiSpace c1) eqn:H1.
  { apply (Hsuf (String c1 "") s1); [lia|reflexivity]. }
  destruct s1 as [|c2 s2]; [split; [exists ""; reflexivity|exact H1]|].
  cbn [String.length] in Hn.
  destruct (if back then strings.space2 c2 c1 else strings.space2 c1 c2).
  { apply (Hsuf (String c1 (String c2 "")) s2); [lia|reflexivity]. }
  destruct s2 as [|c3 s3]; [split; [exists ""; reflexivity|exact H1]|].
  cbn [String.length] in Hn.
  destruct (if back then strings.space3 c3 c2 c1 else strings.space3 c1 c2 c3).
  { apply (Hsuf (String c1 (String c2 (String c3 ""))) s3); [lia|reflexivity]. }
  split; [exists ""; reflexivity|exact H1].
Qed.

(** The trimmed string, when it is not empty, neither starts nor ends with
    a one-byte white space (a line feed in particular). *)
Lemma TrimSpace_ends s :
  strings.TrimSpace s <> "" ->
  exists c1 r1 r2 c2,
    strings.TrimSpace s = String c1 r1 /\
    strings.TrimSpace s = r2 +:+ String c2 "" /\
    strings.asciiSpace c1 = false /\ strings.asciiSpace c2 = false.
Proof.
  unfold strings.TrimSpace, strings.TrimRightSpace, strings.TrimLeftSpace.
  set (u := strings.trimFront false s).
  destruct (trimFront_spec false _ s (le_n _)) as [_ Hu]. fold u in Hu.
  destruct (trimFront_spec true _ (String.rev u) (le_n _)) as [[z Hz] Hv].
  set (v := strings.trimFront true (String.rev u)) in *.
  intros Hne.
  assert (Hu' : u = String.rev v +:+ String.rev z).
  { rewrite <- (rev_involutive u), Hz, rev_append. reflexivity. }
  destruct v as [|c2 v']; [contradiction Hne; reflexivity|].
  rewrite rev_cons in *.
  destruct (String.rev v' +:+ String c2 "") as [|c1 r1] eqn:Et;
    [contradiction Hne; reflexivity|].
  exists c1, r1, (String.rev v'), c2. split; [reflexivity|].
  split; [symmetry; exact Et|]. split; [|exact Hv].
  rewrite Hu' in Hu. exact Hu.
Qed.

Lemma Split_no_sep s sep :
  Forall (fun f => hasByte sep f = false) (strings.Split s sep).
Proof.
  induction s as [|c s IH]; cbn [strings.Split].
  - repeat constructor.
  - destruct (Ascii.eqb c sep) eqn:Hc.
    + constructor; [reflexivity|exact IH].
    + destruct (strings.Split s sep) as [|h t].
      * constructor; [|constructor]. cbn. rewrite Hc. reflexivity.
      * apply Forall_cons in IH as [Hh Ht]. constructor; [|exact Ht].
        cbn. rewrite Hc, Hh. reflexivity.
Qed.

(** Joining the fields with the separator gives the string back. *)
Lemma Split_concat s sep :
  String.concat (String sep "") (strings.Split s sep) = s.
Proof.
  induction s as [|c s IH]; [reflexivity|]. cbn [strings.Split].
  pose proof (Split_not_nil s sep) as Hne.
  destruct (Ascii.eqb_spec c sep) as [->|Hc].
  - destruct (strings.Split s sep) as [|h t]; [contradiction|].
    change (String.concat (String sep "") ("" :: h :: t))
      with (String sep (String.concat (String sep "") (h :: t))).
    rewrite IH. reflexivity.
  - destruct (strings.Split s sep) as [|h t]; [contradiction|].
    destruct t as [|h' t].
    + cbn in IH |- *. rewrite IH. reflexivity.
    + change (String.concat (String sep "") (String c h :: h' :: t))
        with (String c (String.concat (String sep "") (h :: h' :: t))).
      rewrite IH. reflexivity.
Qed.

Lemma Split_head c r sep :
  Ascii.eqb c sep = false ->
  head (strings.Split (String c r) sep) <> Some "".
Proof.
  intros Hc. cbn [strings.Split]. rewrite Hc.
  destruct (strings.Split r sep); cbn; discriminate.
Qed.

Lemma Split_last r c sep :
  Ascii.eqb c sep = false ->
  last (strings.Split (r +:+ String c "") sep) <> Some "".
Proof.
  intros Hc. induction r as [|a r IH].
  - change ("" +:+ String c "") with (String c "").
    cbn [strings.Split]. rewrite Hc. cbn. discriminate.
  - change (String a r +:+ String c "") with (String a (r +:+ String c "")).
    cbn [strings.Split].
    pose proof (Split_not_nil (r +:+ String c "") sep) as Hne.
    destruct (strings.Split (r +:+ String c "") sep) as [|h t];
      [contradiction|].
    destruct (Ascii.eqb a sep).
    + rewrite last_cons_cons. exact IH.
    + destruct t as [|h' t]; [cbn; discriminate|].
      rewrite last_cons_cons in IH |- *. exact IH.
Qed.

Lemma asciiSpace_nl c : strings.asciiSpace c = false -> Ascii.eqb c nl = false.
Proof.
  intros Hc. destruct (Ascii.eqb_spec c nl) as [->|]; [|reflexivity].
  vm_compute in Hc. discriminate.
Qed.

Lemma entries_concat out : String.concat NL (entries out) = strings.TrimSpace out.
Proof.
  unfold entries. destruct (String.eqb_spec (strings.TrimSpace out) "") as [->|];
    [reflexivity|]. apply Split_concat.
Qed.

Lemma entries_no_nl out : Forall (fun f => hasByte nl f = false) (entries out).
Proof.
  unfold entries. destruct (String.eqb _ ""); [constructor|].
  apply Split_no_sep.
Qed.

Lemma entries_ends out :
  head (entries out) <> Some "" /\ last (entries out) <> Some "".
Proof.
  unfold entries.
  destruct (String.eqb_spec (strings.TrimSpace out) "") as [|Hne];
    [split; discriminate|].
  destruct (TrimSpace_ends out Hne) as (c1 & r1 & r2 & c2 & E1 & E2 & H1 & H2).
  split.
  - rewrite E1. apply Split_head, asciiSpace_nl, H1.
  - rewrite E2. apply Split_last, asciiSpace_nl, H2.
Qed.

Lemma GetUntrackedFiles_entries w s l :
  fst (diff.GetUntrackedFiles w s) = Ok l ->
  l = entries (stdout (exec_Run w untrackedArgv)).
Proof.
  rewrite GetUntrackedFiles_eq. destruct (run_err _); [discriminate|].
  intros [= <-]. reflexivity.
Qed.

Lemma GetChangedFiles_entries w branch includeUntracked s l :
  fst (diff.GetChangedFiles w branch includeUntracked s) = Ok l ->
  l = entries (stdout (exec_Run w (changedArgv branch)))
      ++ (if includeUntracked
          then entries (stdout (exec_Run w untrackedArgv)) else []).
Proof.
  rewrite GetChangedFiles_eq. destruct (run_err _); [discriminate|].
  cbn zeta. destruct includeUntracked.
  - rewrite GetUntrackedFiles_eq. destruct (run_err _); [discriminate|].
    intros [= <-]. reflexivity.
  - intros [= <-]. rewrite app_nil_r. reflexivity.
Qed.

(** X6: nothing of the trimmed output is lost or added by the split: for
    [GetUntrackedFiles], and for [GetChangedFiles] without untracked files,
    the entries joined by line feeds are the trimmed output of the
    command. *)
Theorem listing_round_trip w branch s l :
  (fst (diff.GetUntrackedFiles w s) = Ok l ->
   String.concat NL l
   = strings.TrimSpace (stdout (exec_Run w untrackedArgv))) /\
  (fst (diff.GetChangedFiles w branch false s) = Ok l ->
   String.concat NL l
   = strings.TrimSpace (stdout (exec_Run w (changedArgv branch)))).
Proof.
  split.
  - intros H. apply GetUntrackedFiles_entries in H as ->. apply entries_concat.
  - intros H. apply GetChangedFiles_entries in H as ->.
    rewrite app_nil_r. apply entries_concat.
Qed.

Lemma listing_round_trip_witness :
  String.concat NL ["a"; ""; "b"]
  = strings.TrimSpace (stdout (exec_Run Demo.gappy untrackedArgv)).
Proof.
  apply (proj1 (listing_round_trip Demo.gappy "main" state0 ["a"; ""; "b"])).
  reflexivity.
Defined.

(** X7: no entry that [GetUntrackedFiles] or [GetChangedFiles] returns
    contains a line feed. *)
Theorem listing_entries_one_line w branch includeUntracked s l :
  (fst (diff.GetUntrackedFiles w s) = Ok l ->
   Forall (fun f => hasByte nl f = false) l) /\
  (fst (diff.GetChangedFiles w branch includeUntracked s) = Ok l ->
   Forall (fun f => hasByte nl f = false) l).
Proof.
  split.
  - intros H. apply GetUntrackedFiles_entries in H as ->. apply entries_no_nl.
  - intros H. apply GetChangedFiles_entries in H as ->.
    apply Forall_app. split; [apply entries_no_nl|].
    destruct includeUntracked; [apply entries_no_nl|constructor].
Qed.

Lemma listing_entries_one_line_witness :
  Forall (fun f => hasByte nl f = false)
         ["src/a.go"; "gone.txt"; "pkg/"; "notes.txt"].
Proof.
  apply (proj2 (listing_entries_one_line Demo.world "main" true state0 _)).
  reflexivity.
Defined.

(** X8: the first and the last entry that [GetUntrackedFiles] or
    [GetChangedFiles] returns are never the empty string: the output is
    trimmed before it is split, so an empty entry can only come from a blank
    line in the middle of the output. *)
Theorem listing_ends_not_empty w branch includeUntracked s l :
  (fst (diff.GetUntrackedFiles w s) = Ok l ->
   head l <> Some "" /\ last l <> Some "") /\
  (fst (diff.GetChangedFiles w branch includeUntracked s) = Ok l ->
   head l <> Some "" /\ last l <> Some "").
Proof.
  split.
  - intros H. apply GetUntrackedFiles_entries in H as ->. apply entries_ends.
  - intros H. apply GetChangedFiles_entries in H as ->.
    destruct (entries_ends (stdout (exec_Run w (changedArgv branch))))
      as [Hh Hl].
    destruct includeUntracked; [|rewrite app_nil_r; auto].
    destruct (entries_ends (stdout (exec_Run w untrackedArgv))) as [Hh' Hl'].
    split.
    + destruct (entries (stdout (exec_Run w (changedArgv branch))));
        [exact Hh'|exact Hh].
    + rewrite last_app. destruct (last (entries (stdout (exec_Run w untrackedArgv))));
        [exact Hl'|exact Hl].
Qed.

Lemma listing_ends_not_empty_witness :
  head ["a"; ""; "b"; "a"; ""; "b"] <> Some "" /\
  last ["a"; ""; "b"; "a"; ""; "b"] <> Some "".
Proof.
  apply (proj2 (listing_ends_not_empty Demo.gappy "main" true state0 _)).
  reflexivity.
Defined.

(** ** More on the directory walk *)

Lemma treeName_prune t : treeName (prune t) = treeName t.
Proof. destruct t; cbn; try reflexivity. destruct (String.eqb _ _); reflexivity. Qed.

Lemma listing_prune t :
  forall path,
    visibleFiles (listing path false (prune t))
    = visibleFiles (listing path false t) /\
    visibleErrors (listing path false (prune t))
    = visibleErrors (listing path false t).
Proof.
  induction t as [n e|n|n e|n children IH] using Tree_ind; intros path;
    try (split; reflexivity).
  cbn [prune]. destruct (String.eqb n ".git") eqn:Hn.
  - cbn [listing orb List.flat_map]. rewrite Hn.
    change (mkEntry path true None false :: ?l)
      with ([mkEntry path true None false] ++ l).
    rewrite !visibleFiles_app, !visibleErrors_app.
    destruct (childrenListing_beneath path children) as [Hf He].
    unfold childrenListing in Hf, He. rewrite Hf, He. split; reflexivity.
  - cbn [listing orb]. rewrite Hn.
    change (mkEntry path true None false :: ?l)
      with ([mkEntry path true None false] ++ l).
    rewrite !visibleFiles_app, !visibleErrors_app.
    assert (Hcs :
      visibleFiles
        (List.flat_map
           (fun c => listing (filepath.Join path (treeName c)) false c)
           (map prune children))
      = visibleFiles
          (List.flat_map
             (fun c => listing (filepath.Join path (treeName c)) false c)
             children) /\
      visibleErrors
        (List.flat_map
           (fun c => listing (filepath.Join path (treeName c)) false c)
           (map prune children))
      = visibleErrors
          (List.flat_map
             (fun c => listing (filepath.Join path (treeName c)) false c)
             children)).
    { induction IH as [|c cs Hc _ IHcs]; [split; reflexivity|].
      cbn [map List.flat_map].
      rewrite !visibleFiles_app, !visibleErrors_app, treeName_prune.
      destruct (Hc (filepath.Join path (treeName c))) as [-> ->].
      destruct IHcs as [-> ->]. split; reflexivity. }
    destruct Hcs as [-> ->]. split; reflexivity.
Qed.

(** X9: what lies inside a directory named [.git] has no influence on
    [GetAllFilesInDirectory]: on two trees that are the same once their
    [.git] directories are emptied it returns the same list, or the same
    error.  In particular an entry inside [.git] that cannot be examined or
    read does not make the walk fail. *)
Theorem git_contents_ignored w1 w2 dirPath s1 s2 :
  prune (walk_root w1 dirPath) = prune (walk_root w2 dirPath) ->
  fst (diff.GetAllFilesInDirectory w1 dirPath s1)
  = fst (diff.GetAllFilesInDirectory w2 dirPath s2).
Proof.
  intros Hp. rewrite !GetAllFilesInDirectory_spec.
  destruct (listing_prune (walk_root w1 dirPath) dirPath) as [Hf1 He1].
  destruct (listing_prune (walk_root w2 dirPath) dirPath) as [Hf2 He2].
  rewrite <- Hf1, <- He1, <- Hf2, <- He2, Hp. reflexivity.
Qed.

Lemma git_contents_ignored_witness :
  fst (diff.GetAllFilesInDirectory Demo2.dirty "pkg/" state0)
  = Ok ["pkg/a.go"; "pkg/sub/b.go"].
Proof.
  rewrite (git_contents_ignored Demo2.dirty Demo.world "pkg/" state0 state0);
    reflexivity.
Defined.

Lemma NoDup_map_filter {A B} (f : A -> B) (g : A -> bool) l :
  List.NoDup (map f l) -> List.NoDup (map f (List.filter g l)).
Proof.
  induction l as [|a l IH]; cbn [map List.filter]; intros Hnd; [constructor|].
  apply List.NoDup_cons_iff in Hnd as [Hna Hnd].
  destruct (g a); [|apply IH; exact Hnd].
  cbn [map]. constructor; [|apply IH; exact Hnd].
  intros Hin. apply Hna. apply in_map_iff in Hin as (x & Hx & Hin).
  apply List.filter_In in Hin as [Hin _]. apply in_map_iff. eauto.
Qed.

(** X10: when no two entries of the walked tree have the same path, no path
    occurs twice in the list that [GetAllFilesInDirectory] returns. *)
Theorem listed_files_NoDup w dirPath s files :
  fst (diff.GetAllFilesInDirectory w dirPath s) = Ok files ->
  List.NoDup (map entry_path (listing dirPath false (walk_root w dirPath))) ->
  List.NoDup files.
Proof.
  rewrite GetAllFilesInDirectory_spec.
  destruct (visibleErrors _); [|discriminate]. intros [= <-] Hnd.
  apply NoDup_map_filter. exact Hnd.
Qed.

Lemma listed_files_NoDup_witness : List.NoDup ["pkg/a.go"; "pkg/sub/b.go"].
Proof.
  apply (listed_files_NoDup Demo.world "pkg/" state0); [reflexivity|].
  vm_compute. repeat (constructor; [cbn; intuition discriminate|]).
  constructor.
Defined.

(** X11: the walk at its root.  A root that [lstat] does not call a
    directory is listed as itself, the path unchanged; a root directory
    named [.git] gives the empty list, whatever it holds; a root that
    cannot be examined gives the error of [lstat], wrapped. *)
Theorem walk_at_root w dirPath s :
  (forall n, walk_root w dirPath = File n ->
     fst (diff.GetAllFilesInDirectory w dirPath s) = Ok [dirPath]) /\
  (forall children, walk_root w dirPath = Dir ".git" children ->
     fst (diff.GetAllFilesInDirectory w dirPath s) = Ok []) /\
  (forall n e, walk_root w dirPath = NoEntry n e ->
     fst (diff.GetAllFilesInDirectory w dirPath s)
     = Err ("error walking directory " +:+ dirPath +:+ ": " +:+ e)).
Proof.
  rewrite GetAllFilesInDirectory_spec. split; [|split].
  - intros n ->. reflexivity.
  - intros children ->. cbn [listing orb].
    change (String.eqb ".git" ".git") with true.
    change (mkEntry dirPath true None false :: ?l)
      with ([mkEntry dirPath true None false] ++ l).
    rewrite visibleErrors_app, visibleFiles_app.
    destruct (childrenListing_beneath dirPath children) as [Hf He].
    unfold childrenListing in Hf, He.
    rewrite Hf, He. reflexivity.
  - intros n e ->. reflexivity.
Qed.

Lemma walk_at_root_witness :
  fst (diff.GetAllFilesInDirectory Demo.world "nowhere" state0)
  = Err "error walking directory nowhere: lstat nowhere: no such file or directory".
Proof.
  destruct (walk_at_root Demo.world "nowhere" state0) as (_ & _ & Hmissing).
  apply (Hmissing "nowhere"). reflexivity.
Defined.

(** ** The prompt *)

Lemma append_nil_l s : "" +:+ s = s.
Proof. reflexivity. Qed.

Lemma append_cancel_r a b p : a +:+ p = b +:+ p -> a = b.
Proof.
  intros H. apply (f_equal String.rev) in H. rewrite !rev_append in H.
  apply (inj (String.app (String.rev p))) in H.
  rewrite <- (rev_involutive a), <- (rev_involutive b), H. reflexivity.
Qed.

Lemma occursIn_concatAll x l : In x l -> occursIn x (concatAll l).
Proof.
  induction l as [|y l IH]; intros Hin; [destruct Hin|].
  destruct Hin as [->|Hin].
  - exists "", (concatAll l). reflexivity.
  - destruct (IH Hin) as (a & b & E). exists (y +:+ a), b.
    cbn [concatAll fold_right]. fold (concatAll l).
    rewrite E, append_assoc. reflexivity.
Qed.

Lemma occursIn_frame x s pre post :
  occursIn x s -> occursIn x (pre +:+ s +:+ post).
Proof.
  intros (a & b & ->). exists (pre +:+ a), (b +:+ post).
  rewrite !append_assoc. reflexivity.
Qed.

Lemma fold_names l b :
  fold_left
    (fun promptBuilder filename =>
       if String.eqb (strings.TrimSpace filename) "" then promptBuilder
       else prompt.WriteString promptBuilder
              ("    <file name=" +:+ prompt.dq +:+ filename +:+ prompt.dq
               +:+ "/>" +:+ NL))
    l b
  = b +:+ concatAll (map nameLine (List.filter (fun f => negb (isBlank f)) l)).
Proof.
  revert b. induction l as [|f l IH]; intros b.
  - cbn. rewrite append_nil_r. reflexivity.
  - cbn [fold_left List.filter]. rewrite IH. unfold isBlank at 2.
    destruct (String.eqb (strings.TrimSpace f) ""); cbn [negb]; [reflexivity|].
    cbn [map concatAll fold_right]. fold (concatAll (map nameLine
      (List.filter (fun f => negb (isBlank f)) l))).
    unfold prompt.WriteString. rewrite append_assoc. reflexivity.
Qed.

Lemma fold_files kvs b :
  fold_left
    (fun promptBuilder '(filename, content) =>
       let promptBuilder := prompt.WriteString promptBuilder
         ("    <file name=" +:+ prompt.dq +:+ filename +:+ prompt.dq +:+ ">"
          +:+ NL) in
       let promptBuilder := prompt.WriteString promptBuilder
         ("      <![CDATA[" +:+ NL) in
       let promptBuilder := prompt.WriteString promptBuilder content in
       let promptBuilder := prompt.WriteString promptBuilder
         ("      ]]>" +:+ NL) in
       prompt.WriteString promptBuilder ("    </file>" +:+ NL))
    kvs b
  = b +:+ concatAll (map fileElement kvs).
Proof.
  revert b. induction kvs as [|[k v] kvs IH]; intros b.
  - cbn. rewrite append_nil_r. reflexivity.
  - cbn [fold_left]. rewrite IH.
    cbn [map concatAll fold_right]. fold (concatAll (map fileElement kvs)).
    unfold prompt.WriteString, fileElement. cbn [fst snd].
    rewrite !append_assoc. reflexivity.
Qed.

(** The prompt with the loops resolved: fixed text around the lines of the
    non-blank names, the file elements and the diff. *)
Lemma ConstructLLMPrompt_eq rangeMap diff changedFiles files :
  prompt.ConstructLLMPrompt rangeMap diff changedFiles files
  = promptHead
    +:+ concatAll (map nameLine
                     (List.filter (fun f => negb (isBlank f)) changedFiles))
    +:+ promptMiddle
    +:+ concatAll (map fileElement (rangeMap files))
    +:+ promptBeforeDiff +:+ diff +:+ promptTail.
Proof.
  unfold prompt.ConstructLLMPrompt. cbv zeta.
  rewrite fold_files, fold_names.
  unfold prompt.WriteString, promptHead, promptMiddle, promptBeforeDiff,
    promptTail.
  rewrite append_nil_l, !append_assoc. reflexivity.
Qed.

Lemma occursIn_prompt_names rangeMap diff changedFiles files x :
  occursIn x (concatAll (map nameLine
                (List.filter (fun f => negb (isBlank f)) changedFiles))) ->
  occursIn x (prompt.ConstructLLMPrompt rangeMap diff changedFiles files).
Proof.
  intros H. rewrite ConstructLLMPrompt_eq. apply occursIn_frame. exact H.
Qed.

Lemma occursIn_prompt_files rangeMap diff changedFiles files x :
  occursIn x (concatAll (map fileElement (rangeMap files))) ->
  occursIn x (prompt.ConstructLLMPrompt rangeMap diff changedFiles files).
Proof.
  intros H. rewrite ConstructLLMPrompt_eq.
  rewrite <- (append_assoc promptHead), <- (append_assoc (promptHead +:+ _)).
  apply occursIn_frame. exact H.
Qed.

(** X12: the prompt depends on the list of changed files only through its
    names that are not blank: names that trim to the empty string are left
    out of the list of changed files, and two lists with the same non-blank
    names, in the same order, give the same prompt. *)
Theorem prompt_ignores_blank_names rangeMap diff files l1 l2 :
  List.filter (fun f => negb (isBlank f)) l1
  = List.filter (fun f => negb (isBlank f)) l2 ->
  prompt.ConstructLLMPrompt rangeMap diff l1 files
  = prompt.ConstructLLMPrompt rangeMap diff l2 files.
Proof. intros H. rewrite !ConstructLLMPrompt_eq, H. reflexivity. Qed.

Lemma prompt_ignores_blank_names_witness :
  prompt.ConstructLLMPrompt map_to_list "d" ["a"; " "; ""; "b"] ∅
  = prompt.ConstructLLMPrompt map_to_list "d" ["a"; "b"] ∅.
Proof.
  apply (prompt_ignores_blank_names map_to_list "d" ∅). reflexivity.
Defined.

(** X13: every changed file whose name is not blank is named in the prompt,
    on a line of its own, whether or not its content could be resolved. *)
Theorem prompt_names_changed_files rangeMap diff changedFiles files filename :
  In filename changedFiles -> isBlank filename = false ->
  occursIn (nameLine filename)
           (prompt.ConstructLLMPrompt rangeMap diff changedFiles files).
Proof.
  intros Hin Hnb. apply occursIn_prompt_names, occursIn_concatAll.
  apply in_map, List.filter_In. split; [exact Hin|].
  rewrite Hnb. reflexivity.
Qed.

Lemma prompt_names_changed_files_witness :
  occursIn (nameLine "gone.txt")
           (prompt.ConstructLLMPrompt map_to_list "d"
              ["src/a.go"; "gone.txt"; "pkg/"; "notes.txt"] ∅).
Proof.
  apply prompt_names_changed_files; [cbn; auto|reflexivity].
Defined.

(** X14: whatever the order in which the entries of the content map are
    visited, every entry is in the prompt as one file element that holds
    the path and, unchanged, the content. *)
Theorem prompt_holds_content_map rangeMap diff changedFiles files k v :
  rangeMap files ≡ₚ map_to_list files ->
  files !! k = Some v ->
  occursIn (fileElement (k, v))
           (prompt.ConstructLLMPrompt rangeMap diff changedFiles files).
Proof.
  intros Hperm Hkv. apply occursIn_prompt_files, occursIn_concatAll.
  apply in_map. apply list_elem_of_In. rewrite Hperm.
  apply elem_of_map_to_list. exact Hkv.
Qed.

Lemma prompt_holds_content_map_witness :
  occursIn (fileElement ("notes.txt", "hello"))
           (prompt.ConstructLLMPrompt map_to_list "d" ["notes.txt"]
              (<["notes.txt" := "hello"]> (<["src/a.go" := "old"]> ∅))).
Proof.
  apply prompt_holds_content_map; [reflexivity|].
  vm_compute. reflexivity.
Defined.

(** X15: the diff is written into the prompt unchanged, followed only by
    the fixed closing lines; so prompts built from different diffs, with the
    same files, differ. *)
Theorem prompt_diff_verbatim rangeMap changedFiles files :
  exists before,
    (forall diff,
        prompt.ConstructLLMPrompt rangeMap diff changedFiles files
        = before +:+ diff +:+ promptTail) /\
    (forall d1 d2,
        prompt.ConstructLLMPrompt rangeMap d1 changedFiles files
        = prompt.ConstructLLMPrompt rangeMap d2 changedFiles files ->
        d1 = d2).
Proof.
  exists (promptHead
          +:+ concatAll (map nameLine
                (List.filter (fun f => negb (isBlank f)) changedFiles))
          +:+ promptMiddle
          +:+ concatAll (map fileElement (rangeMap files))
          +:+ promptBeforeDiff).
  assert (Heq : forall diff,
             prompt.ConstructLLMPrompt rangeMap diff changedFiles files
             = (promptHead
                +:+ concatAll (map nameLine
                      (List.filter (fun f => negb (isBlank f)) changedFiles))
                +:+ promptMiddle
                +:+ concatAll (map fileElement (rangeMap files))
                +:+ promptBeforeDiff) +:+ diff +:+ promptTail).
  { intros diff. rewrite ConstructLLMPrompt_eq, !append_assoc. reflexivity. }
  split; [exact Heq|].
  intros d1 d2 H. rewrite !Heq in H.
  apply (inj (String.app _)) in H. apply append_cancel_r in H. exact H.
Qed.

Lemma prompt_diff_verbatim_witness :
  prompt.ConstructLLMPrompt map_to_list "one" ["a"] ∅
  <> prompt.ConstructLLMPrompt map_to_list "two" ["a"] ∅.
Proof.
  destruct (prompt_diff_verbatim map_to_list ["a"] ∅) as (before & _ & Hinj).
  intros H. apply Hinj in H. discriminate H.
Defined.

(** ** From the listing to the prompt *)

Lemma main_map_eq w flags s gitDiff changedFiles originalFiles :
  fst (main w flags s) = Prompt gitDiff changedFiles originalFiles ->
  originalFiles
  = record w (branch flags) (List.flat_map (expand w) changedFiles) ∅.
Proof.
  rewrite main_eq.
  destruct (diff.GetGitDiff w (branch flags) s) as [[d|e] s1];
    [|discriminate].
  destruct (diff.GetChangedFiles w _ _ s1) as [[c|e] s2]; [|discriminate].
  destruct (forRange_record w (branch flags) c ∅ s2) as [Hm _].
  destruct (forRange _ c ∅ s2) as [om s3]. cbn [fst] in *.
  intros [= <- <- <-]. exact Hm.
Qed.

(** X16: a run that reaches the prompt puts the resolved content of every
    listed path that is not a directory into the prompt: the path and the
    content that [git show] printed (or else the local content, or else the
    placeholder) make up one file element of the text, whatever the order
    in which the content map is visited. *)
Theorem run_includes_resolved_content rangeMap w flags s gitDiff changedFiles
    originalFiles file fileInfo :
  rangeMap originalFiles ≡ₚ map_to_list originalFiles ->
  fst (main w flags s) = Prompt gitDiff changedFiles originalFiles ->
  In file changedFiles -> file <> "" ->
  os_Stat w file = Ok fileInfo -> IsDir fileInfo = false ->
  occursIn (fileElement (file, resolve w (branch flags) file))
           (prompt.ConstructLLMPrompt rangeMap gitDiff changedFiles
              originalFiles).
Proof.
  intros Hperm Hmain Hin Hne Hstat Hdir.
  apply occursIn_prompt_files, occursIn_concatAll.
  apply in_map. apply list_elem_of_In. rewrite Hperm.
  apply elem_of_map_to_list.
  rewrite (main_map_eq _ _ _ _ _ _ Hmain). apply record_lookup_in.
  apply in_flat_map. exists file. split; [exact Hin|].
  unfold expand. destruct (String.eqb_spec file ""); [contradiction|].
  rewrite Hstat, Hdir. left. reflexivity.
Qed.

Lemma run_includes_resolved_content_witness :
  exists gitDiff changedFiles originalFiles,
    fst (main Demo.world Demo.flags state0)
    = Prompt gitDiff changedFiles originalFiles /\
    occursIn (fileElement ("src/a.go", "old"))
             (prompt.ConstructLLMPrompt map_to_list gitDiff changedFiles
                originalFiles).
Proof.
  destruct (fst (main Demo.world Demo.flags state0)) as [|d c m] eqn:E;
    [vm_compute in E; discriminate|].
  exists d, c, m. split; [reflexivity|].
  assert (Hc : c = ["src/a.go"; "gone.txt"; "pkg/"; "notes.txt"]).
  { rewrite main_eq in E. vm_compute in E. congruence. }
  apply (run_includes_resolved_content map_to_list Demo.world Demo.flags
           state0 d c m "src/a.go" (mkFileInfo "a.go" false));
    [reflexivity|exact E|rewrite Hc; left; reflexivity|discriminate
    |reflexivity|reflexivity].
Defined.

(** X17: [GetChangedFiles] succeeds exactly when every command it runs
    succeeds.  When [git diff --name-only] fails, [git ls-files] is not run;
    when [git ls-files] fails, the tracked entries already obtained are
    dropped and the error of [GetUntrackedFiles] is returned, wrapped once
    more. *)
Theorem GetChangedFiles_failure w branch includeUntracked s :
  let changed := exec_Run w (changedArgv branch) in
  let ls := exec_Run w untrackedArgv in
  (is_Ok (fst (diff.GetChangedFiles w branch includeUntracked s)) = true <->
   run_err changed = None /\
   (includeUntracked = true -> run_err ls = None)) /\
  (forall e, run_err changed = Some e ->
     diff.GetChangedFiles w branch includeUntracked s
     = (Err ("error getting changed files: " +:+ e +:+ ", " +:+ stderr changed),
        called (CallExec (changedArgv branch)) s)) /\
  (forall e, run_err changed = None -> run_err ls = Some e ->
     fst (diff.GetChangedFiles w branch true s)
     = Err ("error getting untracked files: error getting untracked files: "
            +:+ e +:+ ", " +:+ stderr ls)).
Proof.
  cbn zeta. split; [|split].
  - rewrite GetChangedFiles_eq.
    destruct (run_err (exec_Run w (changedArgv branch))) as [e|].
    { cbn. split; [discriminate|]. intros [H _]. discriminate H. }
    cbn zeta. destruct includeUntracked.
    + rewrite GetUntrackedFiles_eq.
      destruct (run_err (exec_Run w untrackedArgv)) as [e|]; cbn.
      * split; [discriminate|]. intros [_ H]. discriminate (H eq_refl).
      * split; auto.
    + cbn. split; [|reflexivity]. intros _. split; [reflexivity|discriminate].
  - intros e He. rewrite GetChangedFiles_eq, He. reflexivity.
  - intros e Hc He. rewrite GetChangedFiles_eq, Hc. cbn zeta.
    rewrite GetUntrackedFiles_eq, He. reflexivity.
Qed.

Lemma GetChangedFiles_failure_witness :
  fst (diff.GetChangedFiles Demo2.deaf "main" true state0)
  = Err "error getting untracked files: error getting untracked files: exit status 128, fatal: not a git repository".
Proof.
  destruct (GetChangedFiles_failure Demo2.deaf "main" true state0)
    as (_ & _ & Hls).
  apply (Hls "exit status 128"); reflexivity.
Defined.

(** ** The whole run *)

Lemma mainProgram_eq rangeMap w pb flags s :
  mainProgram rangeMap w pb flags s =
  match main w flags s with
  | (Fatal, s1) => ((ExitFatal, []), s1)
  | (Prompt gitDiff changedFiles originalFiles, s1) =>
      let promptText :=
        prompt.ConstructLLMPrompt rangeMap gitDiff changedFiles originalFiles in
      if copyFlag flags || shortCopyFlag flags then
        match StdinPipe_err pb with
        | Some err =>
            ((ExitFatal, [Println promptText]),
             logged ("Failed to get stdin pipe for pbcopy: " +:+ err) s1)
        | None =>
            match Start_err pb with
            | Some err =>
                ((ExitFatal, [Println promptText]),
                 logged ("Failed to start pbcopy: " +:+ err)
                        (called (CallExec pbcopyArgv) s1))
            | None =>
                ((ExitOk,
                  [Println promptText; PipeWrite promptText;
                   Println "Prompt copied to clipboard."]),
                 called (CallExec pbcopyArgv) s1)
            end
        end
      else ((ExitOk, [Println promptText]), s1)
  end.
Proof.
  unfold mainProgram. run_M.
  destruct (main w flags s) as [[|d c m] s1]; [reflexivity|].
  cbn zeta. destruct (copyFlag flags || shortCopyFlag flags); [|reflexivity].
  destruct (StdinPipe_err pb); [reflexivity|].
  destruct (Start_err pb); reflexivity.
Qed.

(** The calls of the end of [main]: none, or the start of [pbcopy], and
    that only when the clipboard is asked for. *)
Lemma mainProgram_calls rangeMap w pb flags s :
  calls (snd (mainProgram rangeMap w pb flags s))
  = calls (snd (main w flags s)) \/
  (copyFlag flags || shortCopyFlag flags = true /\
   calls (snd (mainProgram rangeMap w pb flags s))
   = calls (snd (main w flags s)) ++ [CallExec pbcopyArgv]).
Proof.
  rewrite mainProgram_eq.
  destruct (main w flags s) as [[|d c m] s1]; [left; reflexivity|].
  cbn zeta. destruct (copyFlag flags || shortCopyFlag flags);
    [|left; reflexivity].
  destruct (StdinPipe_err pb); [left; reflexivity|].
  destruct (Start_err pb); right; split; reflexivity.
Qed.

(** X4: the commands a whole run of [main] executes are [git diff],
    [git diff --name-only], [git ls-files --others --exclude-standard],
    [git show] of a path on the branch, and [pbcopy]; apart from them the
    program only asks the file system ([os.Stat], [filepath.Walk],
    [os.ReadFile]).  When untracked files are not asked for, [git ls-files]
    is not run; when neither [--copy] nor [-c] is given, [pbcopy] is not
    run. *)
Theorem program_commands rangeMap w pb flags s :
  exists rest,
    calls (snd (mainProgram rangeMap w pb flags s)) = calls s ++ rest /\
    Forall (isProgramCall (branch flags)) rest /\
    (includeUntrackedFlag flags = false ->
     ~ In (CallExec untrackedArgv) rest) /\
    (copyFlag flags = false -> shortCopyFlag flags = false ->
     ~ In (CallExec pbcopyArgv) rest).
Proof.
  destruct (main_commands w flags s) as (rest0 & E0 & F0 & Hls).
  assert (Hnopb : ~ In (CallExec pbcopyArgv) rest0).
  { intros Hin. rewrite Forall_forall in F0.
    apply list_elem_of_In in Hin.
    destruct (F0 _ Hin) as [[H|[H|H]]|[file H]]; discriminate H. }
  assert (F0' : Forall (isProgramCall (branch flags)) rest0).
  { eapply Forall_impl; [exact F0|]. intros c [H|H]; unfold isProgramCall;
      auto. }
  destruct (mainProgram_calls rangeMap w pb flags s) as [E|[Hcopy E]];
    rewrite E, E0.
  - exists rest0. repeat split; auto.
  - exists (rest0 ++ [CallExec pbcopyArgv]). rewrite app_assoc.
    split; [reflexivity|]. split; [|split].
    + apply Forall_app. split; [exact F0'|].
      constructor; [|constructor]. right. right. reflexivity.
    + intros Hno Hin. apply in_app_or in Hin as [Hin|[Hin|[]]].
      * exact (Hls Hno Hin).
      * discriminate Hin.
    + intros Hc Hs. rewrite Hc, Hs in Hcopy. discriminate Hcopy.
Qed.

Lemma program_commands_witness :
  ~ In (CallExec pbcopyArgv)
       (calls (snd (mainProgram map_to_list Demo.world Demo3.noPbcopy
                      Demo.flags state0))) /\
  ~ In (CallExec untrackedArgv)
       (calls (snd (mainProgram map_to_list Demo.world Demo3.pbcopy
                      (mkFlags "main" true false false) state0))).
Proof.
  split.
  - destruct (program_commands map_to_list Demo.world Demo3.noPbcopy
                Demo.flags state0) as (rest & E & _ & _ & Hpb).
    rewrite E. exact (Hpb eq_refl eq_refl).
  - destruct (program_commands map_to_list Demo.world Demo3.pbcopy
                (mkFlags "main" true false false) state0)
      as (rest & E & _ & Hls & _).
    rewrite E. exact (Hls eq_refl).
Defined.

(** X5: a whole run of [main] ends with [log.Fatalf] exactly when
    [git diff], or [git diff --name-only], or (untracked files being asked
    for) [git ls-files] fails, or when the clipboard is asked for and the
    pipe to [pbcopy] or its start fails; no failure of [os.Stat], of a walk,
    of [git show] or of a local read ends the run.  A run that fails at a
    listing step logs exactly one line, has run listing commands only and
    prints nothing; a run that gets past the listing steps prints the
    prompt first, also when the clipboard then fails. *)
Theorem program_fatal_iff rangeMap w pb flags s :
  (fst (fst (mainProgram rangeMap w pb flags s)) = ExitFatal <->
   listingFails w flags \/ clipboardFails pb flags) /\
  (listingFails w flags ->
   snd (fst (mainProgram rangeMap w pb flags s)) = [] /\
   (exists msg,
       log_lines (snd (mainProgram rangeMap w pb flags s))
       = log_lines s ++ [msg]) /\
   adds (isListingCall (branch flags)) s
        (snd (mainProgram rangeMap w pb flags s))) /\
  (~ listingFails w flags ->
   exists gitDiff changedFiles originalFiles more,
     fst (main w flags s) = Prompt gitDiff changedFiles originalFiles /\
     snd (fst (mainProgram rangeMap w pb flags s))
     = Println (prompt.ConstructLLMPrompt rangeMap gitDiff changedFiles
                  originalFiles) :: more).
Proof.
  destruct (main_fatal_iff w flags s) as [Hiff Hrun].
  fold (listingFails w flags) in Hiff.
  rewrite mainProgram_eq. unfold clipboardFails.
  destruct (main w flags s) as [[|d c m] s1] eqn:Em; cbn [fst snd] in *.
  - assert (Hl : listingFails w flags) by (apply Hiff; reflexivity).
    split; [split; auto|]. split.
    + intros _. destruct (Hrun eq_refl) as [Hlog Hadd]. auto.
    + intros Hn. contradiction.
  - assert (Hl : ~ listingFails w flags).
    { intros H. apply Hiff in H. discriminate H. }
    split; [|split].
    + cbn zeta. destruct (copyFlag flags || shortCopyFlag flags).
      * destruct (StdinPipe_err pb) as [e|]; cbn [fst].
        { split; [|reflexivity]. intros _. right.
          split; [reflexivity|]. left. discriminate. }
        destruct (Start_err pb) as [e|]; cbn [fst].
        { split; [|reflexivity]. intros _. right.
          split; [reflexivity|]. right. discriminate. }
        split; [discriminate|].
        intros [H|[_ [H|H]]]; contradiction.
      * cbn [fst]. split; [discriminate|].
        intros [H|[H _]]; [contradiction|discriminate].
    + intros H. contradiction.
    + intros _. exists d, c, m. cbn zeta.
      destruct (copyFlag flags || shortCopyFlag flags);
        [|eexists; split; reflexivity].
      destruct (StdinPipe_err pb); [eexists; split; reflexivity|].
      destruct (Start_err pb); eexists; split; reflexivity.
Qed.

Lemma program_fatal_iff_witness :
  fst (fst (mainProgram map_to_list Demo.world Demo3.noPbcopy Demo3.copyFlags
              state0)) = ExitFatal /\
  snd (fst (mainProgram map_to_list Demo.world Demo3.noPbcopy
              Demo3.copyFlags state0)) <> [] /\
  fst (fst (mainProgram map_to_list Demo2.deaf Demo3.pbcopy Demo.flags
              state0)) = ExitFatal /\
  snd (fst (mainProgram map_to_list Demo2.deaf Demo3.pbcopy Demo.flags
              state0)) = [].
Proof.
  destruct (program_fatal_iff map_to_list Demo.world Demo3.noPbcopy
              Demo3.copyFlags state0) as (Hiff & _ & Hprints).
  destruct (program_fatal_iff map_to_list Demo2.deaf Demo3.pbcopy Demo.flags
              state0) as (Hiff' & Hsilent & _).
  assert (Hok : ~ listingFails Demo.world Demo3.copyFlags).
  { intros [H|[H|[_ H]]]; apply H; reflexivity. }
  assert (Hfail : listingFails Demo2.deaf Demo.flags).
  { right. right. split; [reflexivity|discriminate]. }
  split; [|split; [|split]].
  - apply Hiff. right. split; [reflexivity|]. right. discriminate.
  - destruct (Hprints Hok) as (d & c & m & more & _ & E).
    rewrite E. discriminate.
  - apply Hiff'. left. exact Hfail.
  - exact (proj1 (Hsilent Hfail)).
Defined.
